(** * Eloquent: synthesis orchestration and playback session

    A shallow embedding of the parts of the Eloquent VS Code extension that
    decide its specified behaviour:

    - [JsString], [Number]  the string and number primitives the code uses;
    - [Auth]          [isAuthenticationError] of the extension's entry module
                      and the failure messages the providers build;
    - [Orchestrator]  [synthesizeFromSelection] of the same module: the
                      checks, the key prompt and the retry loop around
                      [provider.synthesize];
    - [Hybrid]        [HybridAudioPlayer] of [player/hybrid.ts] with its temp
                      file, webview panel, stop callback and control
                      messages, and the two commands that drive it;
    - [LocalTTSProvider], [AzureProvider]  the speed transforms of
                      [providers/local.ts] and of the Azure provider.

    Strings are byte strings; [toLowerCase] acts on the ASCII letters, which
    is where every marker phrase of the classifier lives. The user, the
    editor, the backend, the clock and the file system are inputs of the
    model: an [Env] for the orchestrator, a [World] for the player. *)

From Stdlib Require Import ZArith QArith Qround Qpower Qabs Lqa Ascii String List Bool Lia.
From stdpp Require Import base option gmap strings pretty.

Local Open Scope string_scope.
Local Open Scope list_scope.

(** ** JavaScript string primitives *)

Module JsString.

(** [String.prototype.toLowerCase], on one ASCII code unit. *)
Definition lowerChar (c : ascii) : ascii :=
  let n := N_of_ascii c in
  if ((65 <=? n) && (n <=? 90))%N then ascii_of_N (n + 32) else c.

Fixpoint toLowerCase (s : string) : string :=
  match s with
  | EmptyString => EmptyString
  | String c s' => String (lowerChar c) (toLowerCase s')
  end.

(** [s.startsWith(p)]. *)
Fixpoint startsWith (s p : string) {struct p} : bool :=
  match p, s with
  | EmptyString, _ => true
  | String _ _, EmptyString => false
  | String a p', String b s' => Ascii.eqb a b && startsWith s' p'
  end.

(** [s.includes(p)]: [p] occurs at some offset of [s]. *)
Fixpoint includes (s p : string) : bool :=
  startsWith s p ||
  match s with
  | EmptyString => false
  | String _ s' => includes s' p
  end.

(** JavaScript truthiness of a [string | undefined] value. *)
Definition truthy (o : option string) : bool :=
  match o with
  | Some s => negb (String.eqb s "")
  | None => false
  end.

End JsString.

(** ** The authentication-failure classifier and the providers' messages *)

Module Auth.
Import JsString.

(** [isAuthenticationError] of [extension.ts]. *)
Definition isAuthenticationError (message : string) : bool :=
  let normalized := toLowerCase message in
  includes normalized "401" ||
  includes normalized "403" ||
  includes normalized "unauthorized" ||
  includes normalized "unauthorised" ||
  includes normalized "authentication" ||
  includes normalized "invalid api key" ||
  includes normalized "incorrect api key" ||
  includes normalized "invalid subscription key" ||
  includes normalized "access denied".

(** The documented marker phrases, and the two status-code needles. *)
Definition markers : list string :=
  [ "unauthorized"; "unauthorised"; "authentication"; "invalid api key";
    "incorrect api key"; "invalid subscription key"; "access denied" ].

Definition statusNeedles : list string := [ "401"; "403" ].

Definition needles : list string := statusNeedles ++ markers.

(** What a provider rejects with when the HTTP status is not 200.
    [vendor] is the message field found in the parsed error body
    ([error.error?.message] for OpenAI, [error.detail?.message] for
    ElevenLabs), [None] when the body does not parse or has none. *)
Definition openaiMessage (statusCode : N) (vendor : option string) : string :=
  match vendor with
  | Some m => if truthy vendor then m else "API error: " +:+ pretty statusCode
  | None => "API error: " +:+ pretty statusCode
  end.

Definition elevenlabsMessage (statusCode : N) (vendor : option string) : string :=
  match vendor with
  | Some m => if truthy vendor then m else "ElevenLabs API error: " +:+ pretty statusCode
  | None => "ElevenLabs API error: " +:+ pretty statusCode
  end.

(** [AzureProvider] always reports the status and the raw body. *)
Definition azureMessage (statusCode : N) (errorBody : string) : string :=
  "Azure API error: " +:+ pretty statusCode +:+ " - " +:+ errorBody.

(** A failed synthesis as the backend sees it, before it is flattened to
    text: a non-200 response or a socket-level error. *)
Inductive Failure :=
| HttpFailure (statusCode : N) (errorBody : string)
| NetworkFailure (errno : string).

(** Transient and quota failures: time-outs, connection errors, 429 and
    5xx. *)
Definition transient (f : Failure) : bool :=
  match f with
  | HttpFailure c _ => (c =? 429)%N || ((500 <=? c) && (c <=? 599))%N
  | NetworkFailure _ => true
  end.

Definition azureFailureMessage (f : Failure) : string :=
  match f with
  | HttpFailure c body => azureMessage c body
  | NetworkFailure m => m
  end.

(** Status codes from [from] on, [count] of them. *)
Fixpoint statusRange (from : N) (count : nat) : list N :=
  match count with
  | 0 => []
  | S n => from :: statusRange (N.succ from) n
  end.

End Auth.

(** ** The synthesis orchestrator ([synthesizeFromSelection]) *)

Module Orchestrator.
Import JsString Auth.

Inductive TTSProviderType := openai | elevenlabs | azure | local.

Definition isLocal (p : TTSProviderType) : bool :=
  match p with local => true | _ => false end.

Definition providerNames (p : TTSProviderType) : string :=
  match p with
  | openai => "OpenAI"
  | elevenlabs => "ElevenLabs"
  | azure => "Azure"
  | local => "Local TTS"
  end.

Record EloquentConfig := {
  provider : TTSProviderType;
  openaiApiKey : string;
  elevenlabsApiKey : string;
  azureApiKey : string;
  azureRegion : string;
  voice : string;
  speed : Q;
  maxCharacters : Z
}.

Definition getProviderApiKey (config : EloquentConfig) (p : TTSProviderType) : string :=
  match p with
  | openai => openaiApiKey config
  | elevenlabs => elevenlabsApiKey config
  | azure => azureApiKey config
  | local => ""
  end.

Definition Buffer := list Byte.byte.

(** What a rejected promise carries: an [Error] with its message, or any
    other value. *)
Inductive Thrown :=
| ErrorObject (message : string)
| OtherValue.

(** [error instanceof Error ? error.message : 'Unknown error'] *)
Definition errorMessage (e : Thrown) : string :=
  match e with
  | ErrorObject m => m
  | OtherValue => "Unknown error"
  end.

Inductive Response :=
| Resolved (audio : Buffer)
| Rejected (error : Thrown).

(** The answer to the "API key appears invalid" notification. *)
Inductive Action := UpdateKey | Cancel | Dismissed.

(** Everything the orchestrator does that the outside can observe. *)
Inductive Effect :=
| ShowErrorMessage (text : string)
| AskUpdateKey (text : string)
| PromptForApiKey (p : TTSProviderType)
| ProgressReport (text : string)
| Synthesize (p : TTSProviderType) (apiKey region text voice : string) (speed : Q).

(** The editor, the settings, the user and the backend, as the run finds
    them. [cancellation n] is [token.isCancellationRequested] when attempt
    [n] reaches its check; [backend n key] is how [provider.synthesize]
    settles in attempt [n] for a provider built with [key]. *)
Record Env := {
  activeEditor : option string;
  config : EloquentConfig;
  firstPrompt : option string;
  cancellation : nat -> bool;
  backend : nat -> string -> Response;
  retryAction : Action;
  retryPrompt : option string
}.

Record Outcome := {
  result : option Buffer;
  effects : list Effect
}.

Definition progressText (p : TTSProviderType) : string :=
  "Generating speech (" +:+ providerNames p +:+ ")...".

Definition invalidKeyText (p : TTSProviderType) : string :=
  "Eloquent: " +:+ providerNames p +:+ " API key appears invalid. Enter a new key?".

Definition synthesizeCall (env : Env) (text apiKey : string) : Effect :=
  let c := config env in
  Synthesize (provider c) apiKey (azureRegion c) text (voice c) (speed c).

(** The task handed to [withProgress]: report, check the token, call the
    provider. Returns what was done and how the promise settled. *)
Definition attemptTask (env : Env) (text : string) (attempt : nat) (apiKey : string)
  : list Effect * Response :=
  let report := ProgressReport (progressText (provider (config env))) in
  if cancellation env attempt then
    ([report], Rejected (ErrorObject "Cancelled"))
  else
    ([report; synthesizeCall env text apiKey], backend env attempt apiKey).

(** The [for (let attempt = 0; attempt < 2; attempt++)] loop; [remaining]
    counts the iterations left, so the loop starts as [attempts 2 0]. *)
Fixpoint attempts (env : Env) (text : string)
         (remaining attempt : nat) (apiKey : string) : Outcome :=
  match remaining with
  | 0 => {| result := None; effects := [] |}
  | S remaining' =>
    let providerType := provider (config env) in
    let '(done, settled) := attemptTask env text attempt apiKey in
    match settled with
    | Resolved audioBuffer => {| result := Some audioBuffer; effects := done |}
    | Rejected error =>
      let message := errorMessage error in
      if String.eqb message "Cancelled" then
        {| result := None; effects := done |}
      else
        let shouldRetryAuth :=
          negb (isLocal providerType) && Nat.eqb attempt 0 &&
          isAuthenticationError message in
        let surface :=
          {| result := None;
             effects := done ++ [ShowErrorMessage ("Eloquent: " +:+ message)] |} in
        if shouldRetryAuth then
          let ask := AskUpdateKey (invalidKeyText providerType) in
          match retryAction env with
          | UpdateKey =>
            let prompted := done ++ [ask; PromptForApiKey providerType] in
            match retryPrompt env with
            | Some entered =>
              if truthy (Some entered) then
                let rest := attempts env text remaining' (S attempt) entered in
                {| result := result rest; effects := prompted ++ effects rest |}
              else {| result := None; effects := prompted |}
            | None => {| result := None; effects := prompted |}
            end
          | _ =>
            {| result := None;
               effects := done ++ [ask; ShowErrorMessage ("Eloquent: " +:+ message)] |}
          end
        else surface
    end
  end.

Definition tooLongText (config : EloquentConfig) : string :=
  "Selected text exceeds maximum of " +:+ pretty (maxCharacters config) +:+
  " characters. You can adjust this in settings.".

Definition failWith (text : string) : Outcome :=
  {| result := None; effects := [ShowErrorMessage text] |}.

Definition synthesizeFromSelection (env : Env) : Outcome :=
  match activeEditor env with
  | None => failWith "No active editor"
  | Some text =>
    if String.eqb text "" then failWith "Please select text to process"
    else if (maxCharacters (config env) <? Z.of_nat (String.length text))%Z then
      failWith (tooLongText (config env))
    else
      let providerType := provider (config env) in
      if isLocal providerType then attempts env text 2 0 ""
      else
        let apiKey := getProviderApiKey (config env) providerType in
        if truthy (Some apiKey) then attempts env text 2 0 apiKey
        else
          match firstPrompt env with
          | Some entered =>
            if truthy (Some entered) then
              let rest := attempts env text 2 0 entered in
              {| result := result rest;
                 effects := PromptForApiKey providerType :: effects rest |}
            else {| result := None; effects := [PromptForApiKey providerType] |}
          | None => {| result := None; effects := [PromptForApiKey providerType] |}
          end
  end.

(** *** Observations on a run *)

Definition isSynthesize (e : Effect) : bool :=
  match e with Synthesize _ _ _ _ _ _ => true | _ => false end.

Definition isErrorNotice (e : Effect) : bool :=
  match e with ShowErrorMessage _ | AskUpdateKey _ => true | _ => false end.

Definition isAskUpdateKey (e : Effect) : bool :=
  match e with AskUpdateKey _ => true | _ => false end.

(** Number of network synthesis calls issued. *)
Definition calls (o : Outcome) : nat := length (List.filter isSynthesize (effects o)).

(** The error notifications shown to the user. *)
Definition notices (o : Outcome) : list Effect := List.filter isErrorNotice (effects o).

(** A request that passes the editor, selection and length checks. *)
Definition validRequest (env : Env) : option string :=
  match activeEditor env with
  | Some text =>
    if String.eqb text "" then None
    else if (maxCharacters (config env) <? Z.of_nat (String.length text))%Z then None
    else Some text
  | None => None
  end.

(** The key attempt 0 runs with, when the run gets that far. *)
Definition initialKey (env : Env) : option string :=
  let providerType := provider (config env) in
  if isLocal providerType then Some ""
  else
    let apiKey := getProviderApiKey (config env) providerType in
    if truthy (Some apiKey) then Some apiKey
    else match firstPrompt env with
         | Some entered => if truthy (Some entered) then Some entered else None
         | None => None
         end.

(** The failure an attempt ends with, if it fails: the message the
    [catch] block reads. A pre-dispatch cancellation is such a failure. *)
Definition failureOf (env : Env) (text : string) (attempt : nat) (apiKey : string)
  : option string :=
  match snd (attemptTask env text attempt apiKey) with
  | Resolved _ => None
  | Rejected e => Some (errorMessage e)
  end.

(** Whether the run started with [apiKey] offers the credential re-prompt:
    the first attempt fails, not by cancellation, for a provider that takes
    a credential, with a message of the authentication-failure signature. *)
Definition offersRetryFrom (env : Env) (text apiKey : string) : bool :=
  match failureOf env text 0 apiKey with
  | Some message =>
    negb (String.eqb message "Cancelled") &&
    negb (isLocal (provider (config env))) &&
    isAuthenticationError message
  | None => false
  end.

(** The auth-retry path, in the words of the specification: the first
    attempt fails with the authentication-failure signature and the user
    supplies a new credential. *)
Definition retryFrom (env : Env) (text apiKey : string) : bool :=
  offersRetryFrom env text apiKey &&
  match retryAction env with
  | UpdateKey => truthy (retryPrompt env)
  | _ => false
  end.

Definition offersRetry (env : Env) : bool :=
  match validRequest env, initialKey env with
  | Some text, Some apiKey => offersRetryFrom env text apiKey
  | _, _ => false
  end.

Definition authRetryTaken (env : Env) : bool :=
  match validRequest env, initialKey env with
  | Some text, Some apiKey => retryFrom env text apiKey
  | _, _ => false
  end.

End Orchestrator.

(** ** The playback session ([HybridAudioPlayer]) *)

Module Hybrid.
Import JsString.

Definition Buffer := list Byte.byte.

(** The control messages that cross the webview boundary. *)
Inductive Command :=
| ready | play_ | pause_ | resume_ | stop_ | ended | stopped | download
| other (name : string).

(** The part of the host the stop callback acts on: the playing flag of
    [extension.ts], the status bar and the notifications shown. *)
Inductive Notice :=
| ErrorNotice (text : string)
| InfoNotice (text : string).

Record Host := {
  isPlaying : bool;
  statusBarPlaying : bool;
  shown : list Notice
}.

Definition Callback := Host -> Host.

(** The webview panel: the audio source its page embeds, and whether it
    has been revealed. *)
Record Panel := {
  html : option string;
  revealed : bool
}.

(** The fields of a [HybridAudioPlayer]. *)
Record Player := {
  panel : option Panel;
  onDidStopCallback : option Callback;
  tempFile : option string
}.

Inductive FsOp :=
| Unlink (path : string)
| Write (path : string).

(** The world around the player. [busy] are the paths [unlinkSync] fails
    on; [faults] maps a path [writeFileSync] fails on to the error message
    and to what the failed write leaves behind, if anything. *)
Record World := {
  tmpdir : string;
  files : gmap string Buffer;
  busy : gset string;
  faults : gmap string (string * option Buffer);
  fsLog : list FsOp;
  outbox : list Command;
  invoked : nat;
  host : Host;
  saveDialog : option string
}.

Record State := {
  world : World;
  self : Player
}.

Inductive Result (A : Type) :=
| Return (a : A) (s : State)
| Throw (message : string) (s : State).
Arguments Return {A} a s.
Arguments Throw {A} message s.

(** Computations that read and write the state and may throw. *)
Definition M (A : Type) : Type := State -> Result A.

#[global] Instance M_ret : MRet M := fun A a s => Return a s.
#[global] Instance M_bind : MBind M := fun A B k m s =>
  match m s with
  | Return a s' => k a s'
  | Throw e s' => Throw e s'
  end.

Definition get : M State := fun s => Return s s.
Definition put (s : State) : M unit := fun _ => Return tt s.
Definition throw {A} (message : string) : M A := fun s => Throw message s.
Definition tryCatch {A} (m : M A) (handler : string -> M A) : M A := fun s =>
  match m s with
  | Return a s' => Return a s'
  | Throw e s' => handler e s'
  end.

Definition modifyWorld (f : World -> World) : M unit :=
  fun s => Return tt {| world := f (world s); self := self s |}.
Definition modifySelf (f : Player -> Player) : M unit :=
  fun s => Return tt {| world := world s; self := f (self s) |}.

Definition setFiles (fs : gmap string Buffer) (op : FsOp) (w : World) : World :=
  {| tmpdir := tmpdir w; files := fs; busy := busy w; faults := faults w;
     fsLog := fsLog w ++ [op]; outbox := outbox w; invoked := invoked w;
     host := host w; saveDialog := saveDialog w |}.
Definition post (c : Command) (w : World) : World :=
  {| tmpdir := tmpdir w; files := files w; busy := busy w; faults := faults w;
     fsLog := fsLog w; outbox := outbox w ++ [c]; invoked := invoked w;
     host := host w; saveDialog := saveDialog w |}.
Definition call (cb : Callback) (w : World) : World :=
  {| tmpdir := tmpdir w; files := files w; busy := busy w; faults := faults w;
     fsLog := fsLog w; outbox := outbox w; invoked := S (invoked w);
     host := cb (host w); saveDialog := saveDialog w |}.
Definition setHost (h : Host) (w : World) : World :=
  {| tmpdir := tmpdir w; files := files w; busy := busy w; faults := faults w;
     fsLog := fsLog w; outbox := outbox w; invoked := invoked w;
     host := h; saveDialog := saveDialog w |}.

Definition setPanel (p : option Panel) (x : Player) : Player :=
  {| panel := p; onDidStopCallback := onDidStopCallback x; tempFile := tempFile x |}.
Definition setCallback (cb : option Callback) (x : Player) : Player :=
  {| panel := panel x; onDidStopCallback := cb; tempFile := tempFile x |}.
Definition setTempFile (f : option string) (x : Player) : Player :=
  {| panel := panel x; onDidStopCallback := onDidStopCallback x; tempFile := f |}.

(** *** [fs] *)

Definition onDisk (w : World) (path : string) : bool :=
  bool_decide (is_Some (files w !! path)).

Definition isBusy (w : World) (path : string) : bool :=
  bool_decide (path ∈ busy w).

Definition existsSync (path : string) : M bool :=
  s ← get; mret (onDisk (world s) path).

Definition unlinkSync (path : string) : M unit :=
  s ← get;
  if isBusy (world s) path then
    throw ("EBUSY: resource busy or locked, unlink " +:+ path)
  else if onDisk (world s) path then
    modifyWorld (fun w => setFiles (delete path (files w)) (Unlink path) w)
  else throw ("ENOENT: no such file or directory, unlink " +:+ path).

Definition writeFileSync (path : string) (data : Buffer) : M unit :=
  s ← get;
  match faults (world s) !! path with
  | Some (message, leftover) =>
    match leftover with
    | Some part => modifyWorld (fun w => setFiles (<[path := part]> (files w)) (Write path) w)
    | None => mret tt
    end ≫= fun _ => throw message
  | None => modifyWorld (fun w => setFiles (<[path := data]> (files w)) (Write path) w)
  end.

Definition pathJoin (dir name : string) : string := dir +:+ "/" +:+ name.

(** [path.join(os.tmpdir(), `eloquent-${Date.now()}.mp3`)] *)
Definition tempPath (dir : string) (now : N) : string :=
  pathJoin dir ("eloquent-" +:+ pretty now +:+ ".mp3").

(** *** [HybridAudioPlayer] *)

Definition postMessage (c : Command) : M unit := modifyWorld (post c).

(** [this.onDidStopCallback?.()] *)
Definition fireOnDidStop : M unit :=
  s ← get;
  match onDidStopCallback (self s) with
  | Some cb => modifyWorld (call cb)
  | None => mret tt
  end.

Definition cleanup : M unit :=
  s ← get;
  match tempFile (self s) with
  | Some f =>
    present ← existsSync f;
    if truthy (Some f) && present then
      _ ← tryCatch (unlinkSync f) (fun _ => mret tt);
      modifySelf (setTempFile None)
    else mret tt
  | None => mret tt
  end.

Definition notify (n : Notice) : M unit :=
  modifyWorld (fun w =>
    setHost {| isPlaying := isPlaying (host w);
               statusBarPlaying := statusBarPlaying (host w);
               shown := shown (host w) ++ [n] |} w).

Definition showErrorMessage (text : string) : M unit := notify (ErrorNotice text).
Definition showInformationMessage (text : string) : M unit := notify (InfoNotice text).

Definition downloadCurrentAudio : M unit :=
  s ← get;
  match tempFile (self s) with
  | Some f =>
    match files (world s) !! f with
    | Some audioBuffer =>
      if truthy (Some f) then
        match saveDialog (world s) with
        | Some target =>
          tryCatch
            (_ ← writeFileSync target audioBuffer;
             showInformationMessage ("Eloquent: Audio saved to " +:+ target))
            (fun message =>
               showErrorMessage ("Eloquent: Failed to save audio. " +:+ message))
        | None => mret tt
        end
      else showErrorMessage "Eloquent: No audio available to download."
    | None => showErrorMessage "Eloquent: No audio available to download."
    end
  | None => showErrorMessage "Eloquent: No audio available to download."
  end.

(** The listener given to [panel.webview.onDidReceiveMessage]. *)
Definition onDidReceiveMessage (message : Command) : M unit :=
  match message with
  | ended | stopped => fireOnDidStop
  | ready =>
    s ← get;
    match panel (self s) with
    | Some _ => postMessage play_
    | None => mret tt
    end
  | download => downloadCurrentAudio
  | _ => mret tt
  end.

(** The listener given to [panel.onDidDispose]. *)
Definition onDidDispose : M unit :=
  _ ← cleanup;
  _ ← modifySelf (setPanel None);
  fireOnDidStop.

(** [vscode.window.createWebviewPanel], with the two listeners above
    attached to the new panel. *)
Definition createWebviewPanel : M unit :=
  modifySelf (setPanel (Some {| html := None; revealed := true |})).

Definition play (audioData : Buffer) (onStop : option Callback) (now : N) : M unit :=
  _ ← modifySelf (setCallback onStop);
  _ ← cleanup;
  s ← get;
  let path := tempPath (tmpdir (world s)) now in
  _ ← modifySelf (setTempFile (Some path));
  _ ← writeFileSync path audioData;
  s ← get;
  _ ← match panel (self s) with
      | Some _ => mret tt
      | None => createWebviewPanel
      end;
  modifySelf (setPanel (Some {| html := Some path; revealed := true |})).

Definition stop : M unit :=
  s ← get;
  _ ← match panel (self s) with
      | Some _ => postMessage stop_
      | None => mret tt
      end;
  cleanup.

Definition pause : M unit :=
  s ← get;
  match panel (self s) with
  | Some _ => postMessage pause_
  | None => mret tt
  end.

Definition resume : M unit :=
  s ← get;
  match panel (self s) with
  | Some _ => postMessage resume_
  | None => mret tt
  end.

Definition dispose : M unit :=
  _ ← stop;
  s ← get;
  _ ← match panel (self s) with
      | Some _ => onDidDispose
      | None => mret tt
      end;
  modifySelf (setPanel None).

(** *** The callers in [extension.ts] *)

Definition setPlaying (playing : bool) : M unit :=
  modifyWorld (fun w =>
    setHost {| isPlaying := playing; statusBarPlaying := playing;
               shown := shown (host w) |} w).

(** The callback [readAloud] registers with [play]. *)
Definition onStopOfReadAloud : Callback := fun h =>
  {| isPlaying := false; statusBarPlaying := false; shown := shown h |}.

(** The part of the [eloquent.readAloud] command that runs once the audio
    has been synthesized. *)
Definition readAloud (synthesisResult : Buffer) (now : N) : M unit :=
  tryCatch
    (_ ← setPlaying true;
     play synthesisResult (Some onStopOfReadAloud) now)
    (fun message =>
       _ ← setPlaying false;
       if String.eqb message "Cancelled" then mret tt
       else showErrorMessage ("Eloquent: " +:+ message)).

(** The [eloquent.stop] command. *)
Definition stopCommand : M unit :=
  _ ← stop;
  setPlaying false.

(** A player straight out of the constructor. *)
Definition newPlayer : Player :=
  {| panel := None; onDidStopCallback := None; tempFile := None |}.

(** What [cleanup] leaves behind: when the player has a temp file and it
    is on disk, the file is deleted unless the deletion fails, and the
    reference is cleared either way. *)
Definition afterCleanup (s : State) : State :=
  match tempFile (self s) with
  | Some f =>
    if truthy (Some f) && onDisk (world s) f then
      {| world := if isBusy (world s) f then world s
                  else setFiles (delete f (files (world s))) (Unlink f) (world s);
         self := setTempFile None (self s) |}
    else s
  | None => s
  end.

(** The state in which [play] writes its file. *)
Definition beforeWrite (onStop : option Callback) (s : State) : State :=
  afterCleanup {| world := world s; self := setCallback onStop (self s) |}.

(** The state [stop] runs [cleanup] in. *)
Definition afterStopMessage (s : State) : State :=
  {| world := match panel (self s) with
              | Some _ => post stop_ (world s)
              | None => world s
              end;
     self := self s |}.

Definition silentHost : Host :=
  {| isPlaying := false; statusBarPlaying := false; shown := [] |}.

(** A world with an empty disk on which nothing fails. *)
Definition quietWorld (dir : string) : World :=
  {| tmpdir := dir; files := ∅; busy := ∅; faults := ∅; fsLog := [];
     outbox := []; invoked := 0; host := silentHost; saveDialog := None |}.

(** The extension just activated: a new player, nothing on disk. *)
Definition idle : State := {| world := quietWorld "/tmp"; self := newPlayer |}.

(** The same, with a temp directory in which the file of time 1000 cannot
    be deleted (it is held open, say). *)
Definition lockedIdle : State :=
  {| world :=
       {| tmpdir := "/tmp"; files := ∅; busy := {[ tempPath "/tmp" 1000 ]};
          faults := ∅; fsLog := []; outbox := []; invoked := 0;
          host := silentHost; saveDialog := None |};
     self := newPlayer |}.

(** The same, with a disk on which the write of time 1000 fails. *)
Definition fullIdle : State :=
  {| world :=
       {| tmpdir := "/tmp"; files := ∅; busy := ∅;
          faults := {[ tempPath "/tmp" 1000 :=
                         ("ENOSPC: no space left on device, write", None) ]};
          fsLog := []; outbox := []; invoked := 0;
          host := silentHost; saveDialog := None |};
     self := newPlayer |}.

(** [readAloud] has started a session on the quiet disk, at time 1000. *)
Definition playing : State :=
  {| world :=
       {| tmpdir := "/tmp"; files := {[ tempPath "/tmp" 1000 := [] ]}; busy := ∅;
          faults := ∅; fsLog := [Write (tempPath "/tmp" 1000)]; outbox := [];
          invoked := 0;
          host := {| isPlaying := true; statusBarPlaying := true; shown := [] |};
          saveDialog := None |};
     self := {| panel := Some {| html := Some (tempPath "/tmp" 1000); revealed := true |};
                onDidStopCallback := Some onStopOfReadAloud;
                tempFile := Some (tempPath "/tmp" 1000) |} |}.

(** Running a computation for its final state, whether it threw or not. *)
Definition stateOf {A} (r : Result A) : State :=
  match r with Return _ s => s | Throw _ s => s end.

Definition threw {A} (r : Result A) : option string :=
  match r with Return _ _ => None | Throw e _ => Some e end.

End Hybrid.

(** ** JavaScript numbers *)

(** A finite JavaScript number is an IEEE-754 binary64 value; it is
    represented here by the rational it denotes. Every arithmetic operation
    returns the exact result rounded to binary64, to nearest with ties to
    even. Infinities, NaN and the sign of zero are left out: the speed
    transforms stay far from overflow on the speed scale. *)
Module Number.
Local Open Scope Q_scope.

(** The nearest integer, ties to the even one. *)
Definition roundHalfEven (t : Q) : Z :=
  let f := Qfloor t in
  match Qcompare (t - inject_Z f) (1 # 2) with
  | Lt => f
  | Gt => (f + 1)%Z
  | Eq => if Z.even f then f else (f + 1)%Z
  end.

(** For [q > 0], the [k] with [2 ^ k <= q < 2 ^ (k + 1)]. *)
Definition ilog2 (q : Q) : Z :=
  let k := (Z.log2 (Qnum q) - Z.log2 (Zpos (Qden q)))%Z in
  if Qle_bool (2 ^ k) q then k else (k - 1)%Z.

(** The exponent of the last place of a 53-bit significand at the
    magnitude of [x], with gradual underflow at [2 ^ -1074]. *)
Definition ulpExponent (x : Q) : Z := Z.max (ilog2 (Qabs x) - 52) (-1074).

(** Rounding to binary64. *)
Definition binary64 (x : Q) : Q :=
  let e := ulpExponent x in
  inject_Z (roundHalfEven (x / 2 ^ e)) * 2 ^ e.

(** [x - y] and [x * y] on numbers. *)
Definition sub (x y : Q) : Q := binary64 (x - y).
Definition mul (x y : Q) : Q := binary64 (x * y).

(** [Math.round]: the nearest integer, ties towards plus infinity. *)
Definition Math_round (x : Q) : Z := Qfloor (x + (1 # 2)).

End Number.

(** ** The speed transforms of the providers *)

Module LocalTTSProvider.
Import Number.

(** The SAPI rate, from -10 to 10, where 0 is normal. *)
Definition speedToRate (speed : Q) : Z :=
  if Qle_bool speed 1 then Math_round (mul (sub speed 1) 10)
  else Math_round (mul (sub speed 1) (binary64 (333 # 100))).

(** [rate] of [synthesizeMac] and [speed] of [synthesizeLinux]: words per
    minute for [say -r] and [espeak -s]. *)
Definition wordsPerMinute (speed : Q) : Z := Math_round (mul 175 speed).

End LocalTTSProvider.

Module AzureProvider.
Import Number.

(** [percent] of [speedToRate]. *)
Definition percent (speed : Q) : Z := Math_round (mul (sub speed 1) 100).

(** The prosody rate: the percentage with its sign written out. *)
Definition speedToRate (speed : Q) : string :=
  let percent := percent speed in
  if (0 <=? percent)%Z then "+" +:+ pretty percent +:+ "%"
  else pretty percent +:+ "%".

End AzureProvider.

(** ** Sequences of player operations *)

Module Session.
Import JsString Hybrid.

(** What can happen to a player: the calls of the extension, a message
    from the webview, the user closing the panel. *)
Inductive Op :=
| DoPlay (audioData : Buffer) (onStop : option Callback) (now : N)
| DoStop
| DoPause
| DoResume
| DoDispose
| Receive (message : Command)
| ClosePanel.

Definition step (op : Op) : M unit :=
  match op with
  | DoPlay audioData onStop now => play audioData onStop now
  | DoStop => stop
  | DoPause => pause
  | DoResume => resume
  | DoDispose => dispose
  | Receive message => onDidReceiveMessage message
  | ClosePanel =>
    s ← get;
    match panel (self s) with
    | Some _ => onDidDispose
    | None => mret tt
    end
  end.

(** The operations one after the other; one that throws leaves the state
    it had reached, and the next one runs from there. *)
Fixpoint runOps (ops : list Op) (s : State) : State :=
  match ops with
  | [] => s
  | op :: rest => runOps rest (stateOf (step op s))
  end.

(** Whether every deletion in a log is of a path written earlier in the
    log, or listed in [written]. *)
Fixpoint deletesOnlyWritten (written : list string) (log : list FsOp) : bool :=
  match log with
  | [] => true
  | Write p :: rest => deletesOnlyWritten (p :: written) rest
  | Unlink p :: rest =>
    existsb (String.eqb p) written && deletesOnlyWritten written rest
  end.

(** The state once the stop callback, if there is one, has run. *)
Definition afterFire (s : State) : State :=
  {| world := match onDidStopCallback (self s) with
              | Some cb => call cb (world s)
              | None => world s
              end;
     self := self s |}.

(** The state once the panel's dispose listener has run. *)
Definition afterClose (s : State) : State :=
  afterFire {| world := world (afterCleanup s);
               self := setPanel None (self (afterCleanup s)) |}.

(** The state [dispose] leaves. *)
Definition afterDispose (s : State) : State :=
  let stopped_ := afterCleanup (afterStopMessage s) in
  let closed :=
    match panel (self stopped_) with
    | Some _ => afterClose stopped_
    | None => stopped_
    end in
  {| world := world closed; self := setPanel None (self closed) |}.

(** A log in which only written paths are deleted, for a disk on which
    every file has been written by the log. *)
Definition wellLogged (w : World) : Prop :=
  deletesOnlyWritten [] (fsLog w) = true /\
  forall p, onDisk w p = true -> In (Write p) (fsLog w).

(** The world once a notification has been shown. *)
Definition noticed (n : Notice) (w : World) : World :=
  setHost {| isPlaying := isPlaying (host w);
             statusBarPlaying := statusBarPlaying (host w);
             shown := shown (host w) ++ [n] |} w.

Definition noAudio : Notice := ErrorNotice "Eloquent: No audio available to download.".


(** A change of the world that keeps the log well formed and runs no
    callback. *)
Definition Quiet (w w' : World) : Prop :=
  (wellLogged w -> wellLogged w') /\ invoked w' = invoked w.

(** The operations after which the stop callback may have run. *)
Definition endsPlayback (op : Op) : bool :=
  match op with
  | Receive ended | Receive stopped | ClosePanel | DoDispose => true
  | _ => false
  end.

End Session.

(** ** The player on system commands ([SystemAudioPlayer]) *)

Module System.
Import JsString Hybrid.

Inductive Platform := win32 | darwin | linux.

(** The command a platform plays the file with. *)
Definition playerCommand (platform : Platform) : string :=
  match platform with
  | win32 => "powershell"
  | darwin => "afplay"
  | linux => "mpg123"
  end.

(** The fields of a [SystemAudioPlayer]; a process is known by its
    number. *)
Record Player := {
  currentProcess : option nat;
  tempFile : option string;
  onDidStopCallback : option Callback
}.

(** The processes started and killed so far, and whether the next [spawn]
    throws. *)
Record Processes := {
  spawned : list (nat * string * string);
  killed : list nat;
  spawnError : option string
}.

Record State := {
  world : World;
  processes : Processes;
  self : Player
}.

Definition newPlayer : Player :=
  {| currentProcess := None; tempFile := None; onDidStopCallback := None |}.

(** [cleanup]: as in the hybrid player, and the process reference goes. *)
Definition cleanup (s : State) : State :=
  let released :=
    match tempFile (self s) with
    | Some f =>
      if truthy (Some f) && onDisk (world s) f then
        (if isBusy (world s) f then world s
         else setFiles (delete f (files (world s))) (Unlink f) (world s),
         None)
      else (world s, Some f)
    | None => (world s, None)
    end in
  {| world := fst released; processes := processes s;
     self := {| currentProcess := None; tempFile := snd released;
                onDidStopCallback := onDidStopCallback (self s) |} |}.

(** [this.onDidStopCallback?.()] *)
Definition fire (s : State) : State :=
  {| world := match onDidStopCallback (self s) with
              | Some cb => call cb (world s)
              | None => world s
              end;
     processes := processes s; self := self s |}.

Definition kill (pid : nat) (s : State) : State :=
  {| world := world s;
     processes := {| spawned := spawned (processes s);
                     killed := killed (processes s) ++ [pid];
                     spawnError := spawnError (processes s) |};
     self := {| currentProcess := None; tempFile := tempFile (self s);
                onDidStopCallback := onDidStopCallback (self s) |} |}.

Definition stop (s : State) : State :=
  let s1 := match currentProcess (self s) with
            | Some pid => kill pid s
            | None => s
            end in
  fire (cleanup s1).

(** The [close] and the [error] listener of a process. *)
Definition onExit (s : State) : State := fire (cleanup s).

Inductive Outcome :=
| Returned (s : State)
| Thrown (message : string) (s : State).

Definition play (platform : Platform) (audioData : Buffer) (onStop : option Callback)
           (now : N) (s : State) : Outcome :=
  let s1 := stop s in
  let path := tempPath (tmpdir (world s1)) now in
  let x2 := {| currentProcess := currentProcess (self s1); tempFile := Some path;
               onDidStopCallback := onStop |} in
  match faults (world s1) !! path with
  | Some (message, leftover) =>
    Thrown message
      {| world := match leftover with
                  | Some part =>
                    setFiles (<[path := part]> (files (world s1))) (Write path) (world s1)
                  | None => world s1
                  end;
         processes := processes s1; self := x2 |}
  | None =>
    let w3 := setFiles (<[path := audioData]> (files (world s1))) (Write path) (world s1) in
    match spawnError (processes s1) with
    | Some message =>
      Thrown message (cleanup {| world := w3; processes := processes s1; self := x2 |})
    | None =>
      let pid := length (spawned (processes s1)) in
      Returned
        {| world := w3;
           processes := {| spawned := spawned (processes s1) ++
                                      [(pid, playerCommand platform, path)];
                           killed := killed (processes s1);
                           spawnError := None |};
           self := {| currentProcess := Some pid; tempFile := Some path;
                      onDidStopCallback := onStop |} |}
    end
  end.

Definition dispose (s : State) : State := stop s.

Definition stateOf (o : Outcome) : State :=
  match o with Returned s => s | Thrown _ s => s end.

(** A session of the system player: process 0 plays the file of time
    1000, and the callback of [readAloud] is stored. *)
Definition busyPlaying : State :=
  {| world := Hybrid.world playing;
     processes := {| spawned := [(0, "afplay", tempPath "/tmp" 1000)]; killed := [];
                     spawnError := None |};
     self := {| currentProcess := Some 0; tempFile := Some (tempPath "/tmp" 1000);
                onDidStopCallback := Some onStopOfReadAloud |} |}.

(** A new system player on a machine where starting the player command
    throws. *)
Definition spawnThrows : State :=
  {| world := quietWorld "/tmp";
     processes := {| spawned := []; killed := [];
                     spawnError := Some "spawn E2BIG" |};
     self := newPlayer |}.

End System.

(** ** Keys and provider in the settings *)

Module Settings.
Import JsString Orchestrator.

(** [getConfiguration('eloquent').update(setting, key)] for the key
    setting of a provider. *)
Definition setApiKey (p : TTSProviderType) (key : string) (c : EloquentConfig)
  : EloquentConfig :=
  match p with
  | openai =>
    {| provider := provider c; openaiApiKey := key;
       elevenlabsApiKey := elevenlabsApiKey c; azureApiKey := azureApiKey c;
       azureRegion := azureRegion c; voice := voice c; speed := speed c;
       maxCharacters := maxCharacters c |}
  | elevenlabs =>
    {| provider := provider c; openaiApiKey := openaiApiKey c;
       elevenlabsApiKey := key; azureApiKey := azureApiKey c;
       azureRegion := azureRegion c; voice := voice c; speed := speed c;
       maxCharacters := maxCharacters c |}
  | azure =>
    {| provider := provider c; openaiApiKey := openaiApiKey c;
       elevenlabsApiKey := elevenlabsApiKey c; azureApiKey := key;
       azureRegion := azureRegion c; voice := voice c; speed := speed c;
       maxCharacters := maxCharacters c |}
  | local => c
  end.

Definition setProvider (p : TTSProviderType) (c : EloquentConfig) : EloquentConfig :=
  {| provider := p; openaiApiKey := openaiApiKey c;
     elevenlabsApiKey := elevenlabsApiKey c; azureApiKey := azureApiKey c;
     azureRegion := azureRegion c; voice := voice c; speed := speed c;
     maxCharacters := maxCharacters c |}.

(** What the user gets to see. *)
Inductive Ui :=
| InputBox (p : TTSProviderType)
| AskUpdate (p : TTSProviderType)
| Info (text : string)
| QuickPick.

(** The settings, the flag [suppressProviderChangePrompt] and what has
    been shown. *)
Record Desk := {
  stored : EloquentConfig;
  suppress : bool;
  seen : list Ui
}.

(** The buttons of the "Update API key?" message. *)
Inductive Button := UpdateKeyButton | KeepCurrentKeyButton.

(** What the user will answer: the key typed into an input box, the button
    pressed on the "Update API key?" message, the provider picked. *)
Record Answers := {
  typed : option string;
  pressed : option Button;
  picked : option TTSProviderType
}.

Definition show (u : Ui) (d : Desk) : Desk :=
  {| stored := stored d; suppress := suppress d; seen := seen d ++ [u] |}.

(** [promptForApiKey] of the configuration module: the key that was typed,
    and the desk afterwards. The local provider has no entry in [prompts]. *)
Definition promptForApiKey (p : TTSProviderType) (a : Answers) (d : Desk)
  : option string * Desk :=
  if isLocal p then (None, d)
  else
    let d1 := show (InputBox p) d in
    match typed a with
    | Some key =>
      if truthy (Some key) then
        (Some key,
         {| stored := setApiKey p key (stored d1); suppress := suppress d1;
            seen := seen d1 |})
      else (Some key, d1)
    | None => (None, d1)
    end.

(** [handleProviderKeyPrompt] *)
Definition handleProviderKeyPrompt (p : TTSProviderType) (a : Answers) (d : Desk) : Desk :=
  if isLocal p then d
  else
    let existingKey := getProviderApiKey (stored d) p in
    if negb (truthy (Some existingKey)) then snd (promptForApiKey p a d)
    else
      let d1 := show (AskUpdate p) d in
      match pressed a with
      | Some UpdateKeyButton => snd (promptForApiKey p a d1)
      | _ => d1
      end.

(** The listener on configuration changes; [affectsProvider] is
    [event.affectsConfiguration('eloquent.provider')]. *)
Definition configChangeListener (affectsProvider : bool) (a : Answers) (d : Desk) : Desk :=
  if negb affectsProvider || suppress d then d
  else handleProviderKeyPrompt (provider (stored d)) a d.

(** The provider setting is written, and the listener hears of it. *)
Definition updateProvider (p : TTSProviderType) (a : Answers) (d : Desk) : Desk :=
  configChangeListener true a
    {| stored := setProvider p (stored d); suppress := suppress d; seen := seen d |}.

Definition setSuppress (b : bool) (d : Desk) : Desk :=
  {| stored := stored d; suppress := b; seen := seen d |}.

Definition providerLabel (p : TTSProviderType) : string :=
  match p with
  | openai => "OpenAI"
  | elevenlabs => "ElevenLabs"
  | azure => "Azure"
  | local => "Local"
  end.

(** The [eloquent.selectProvider] command. *)
Definition selectProviderCommand (a : Answers) (d : Desk) : Desk :=
  let d1 := show QuickPick d in
  match picked a with
  | Some selected =>
    let d2 := setSuppress true d1 in
    let d3 := updateProvider selected a d2 in
    let d4 := setSuppress false d3 in
    let d5 := show (Info ("Eloquent: Provider set to " +:+ providerLabel selected)) d4 in
    handleProviderKeyPrompt selected a d5
  | None => d1
  end.

Definition sameProvider (p q : TTSProviderType) : bool :=
  match p, q with
  | openai, openai | elevenlabs, elevenlabs | azure, azure | local, local => true
  | _, _ => false
  end.

(** The settings other than the keys. *)
Definition otherSettings (c : EloquentConfig) :=
  (provider c, azureRegion c, voice c, speed c, maxCharacters c).

Definition isInputBox (u : Ui) : bool :=
  match u with InputBox _ => true | _ => false end.

Definition isAskUpdate (u : Ui) : bool :=
  match u with AskUpdate _ => true | _ => false end.

End Settings.

(** ** More observations on a run *)

Module Run.
Import JsString Auth Orchestrator.

(** The credentials the synthesis calls of a run were made with, in
    order. *)
Fixpoint keysOf (l : list Effect) : list string :=
  match l with
  | [] => []
  | Synthesize _ apiKey _ _ _ _ :: rest => apiKey :: keysOf rest
  | _ :: rest => keysOf rest
  end.

(** Whether an effect, if it is a synthesis call, is the call for the
    selection and the settings of the run. *)
Definition isTheRequest (env : Env) (text : string) (e : Effect) : Prop :=
  match e with
  | Synthesize p _ region t v sp =>
    p = provider (config env) /\ region = azureRegion (config env) /\
    t = text /\ v = voice (config env) /\ sp = speed (config env)
  | _ => True
  end.


Definition isPrompt (e : Effect) : bool :=
  match e with PromptForApiKey _ | AskUpdateKey _ => true | _ => false end.

End Run.

(** ** Text handed to the backends *)

Module Escaping.
Import JsString.

(** [s.replace(/c/g, by)] for a one-character pattern [c] and a replacement
    without dollar patterns. *)
Fixpoint replaceChar (c : ascii) (by_ : string) (s : string) : string :=
  match s with
  | EmptyString => EmptyString
  | String a s' =>
    if Ascii.eqb a c then by_ +:+ replaceChar c by_ s'
    else String a (replaceChar c by_ s')
  end.

Definition quot : ascii := ascii_of_N 34.
Definition apos : ascii := ascii_of_N 39.
Definition amp : ascii := ascii_of_N 38.
Definition lt : ascii := ascii_of_N 60.
Definition gt : ascii := ascii_of_N 62.
Definition backtick : ascii := ascii_of_N 96.

(** [AzureProvider.escapeXml]: five global replacements, [&] first. *)
Definition escapeXml (text : string) : string :=
  replaceChar apos "&apos;"
    (replaceChar quot "&quot;"
       (replaceChar gt "&gt;"
          (replaceChar lt "&lt;"
             (replaceChar amp "&amp;" text)))).

(** [escapedText] of [LocalTTSProvider.synthesizeWindows]: apostrophes are
    doubled, then double quotes get a backtick in front. *)
Definition escapePowerShell (text : string) : string :=
  replaceChar quot (String backtick (String quot ""))
    (replaceChar apos (String apos (String apos "")) text).

(** What one character of the text becomes under [escapeXml]. *)
Definition xmlEntity (a : ascii) : string :=
  if Ascii.eqb a amp then "&amp;"
  else if Ascii.eqb a lt then "&lt;"
  else if Ascii.eqb a gt then "&gt;"
  else if Ascii.eqb a quot then "&quot;"
  else if Ascii.eqb a apos then "&apos;"
  else String a "".

(** What one character of the text becomes under [escapePowerShell]. *)
Definition powerShellChar (a : ascii) : string :=
  if Ascii.eqb a apos then String apos (String apos "")
  else if Ascii.eqb a quot then String backtick (String quot "")
  else String a "".

(** Whether character [c] occurs in [s]. *)
Fixpoint occurs (c : ascii) (s : string) : bool :=
  match s with
  | EmptyString => false
  | String a s' => Ascii.eqb a c || occurs c s'
  end.

(** Whether every maximal run of apostrophes in [s] has even length;
    [odd] tells whether an odd number of them has just been read. *)
Fixpoint apostrophesPaired (odd : bool) (s : string) : bool :=
  match s with
  | EmptyString => negb odd
  | String a s' =>
    if Ascii.eqb a apos then apostrophesPaired (negb odd) s'
    else negb odd && apostrophesPaired false s'
  end.

(** The characters that would open or close markup or an attribute. *)
Definition markup : list ascii := [lt; gt; quot; apos].

(** Whether every [&] in [s] starts one of the five predefined
    entities. *)
Fixpoint entitiesOnly (s : string) : bool :=
  match s with
  | EmptyString => true
  | String a s' =>
    (if Ascii.eqb a amp then
       startsWith s' "amp;" || startsWith s' "lt;" || startsWith s' "gt;" ||
       startsWith s' "quot;" || startsWith s' "apos;"
     else true) && entitiesOnly s'
  end.

(** Whether every double quote in [s] has a backtick right before it;
    [prev] tells whether the character just read was a backtick. *)
Fixpoint quotesBackticked (prev : bool) (s : string) : bool :=
  match s with
  | EmptyString => true
  | String a s' =>
    (if Ascii.eqb a quot then prev else true) &&
    quotesBackticked (Ascii.eqb a backtick) s'
  end.

End Escaping.

(** ** The voices *)

Module Voices.
Import JsString.











(** [s.split(c)] for a one-character separator: the pieces between the
    separators, at least one. *)
Fixpoint split (c : ascii) (s : string) : list string :=
  match s with
  | EmptyString => [EmptyString]
  | String a s' =>
    if Ascii.eqb a c then EmptyString :: split c s'
    else match split c s' with
         | piece :: rest => String a piece :: rest
         | [] => [String a EmptyString]
         end
  end.



End Voices.

(** ** Concrete runs *)

Module Scenarios.
Import Auth Orchestrator.

Definition settings (p : TTSProviderType) : EloquentConfig :=
  {| provider := p;
     openaiApiKey := "sk-old"; elevenlabsApiKey := "el-old"; azureApiKey := "az-old";
     azureRegion := "eastus"; voice := "nova"; speed := 1; maxCharacters := 4096 |}.

(** OpenAI answers 401 to every call; the user enters a new key, and the
    progress notification of the second attempt is already cancelled when
    its task starts. *)
Definition retryThenCancelled : Env :=
  {| activeEditor := Some "Hello world";
     config := settings openai;
     firstPrompt := None;
     cancellation := fun attempt => Nat.eqb attempt 1;
     backend := fun _ _ => Rejected (ErrorObject (openaiMessage 401 None));
     retryAction := UpdateKey;
     retryPrompt := Some "sk-new" |}.

(** Nobody cancels, and OpenAI rejects the call with an error body whose
    message reads "Cancelled". *)
Definition backendSaysCancelled : Env :=
  {| activeEditor := Some "Hello world";
     config := settings openai;
     firstPrompt := None;
     cancellation := fun _ => false;
     backend := fun _ _ => Rejected (ErrorObject (openaiMessage 500 (Some "Cancelled")));
     retryAction := UpdateKey;
     retryPrompt := Some "sk-new" |}.

(** Azure answers 429 to the first call, with a body that happens to
    contain the digits 401. *)
Definition quotaBody : string := "Quota exceeded. Retry after 401 seconds.".

Definition azureQuota : Env :=
  {| activeEditor := Some "Hello world";
     config := settings azure;
     firstPrompt := None;
     cancellation := fun _ => false;
     backend := fun _ _ =>
       Rejected (ErrorObject (azureFailureMessage (HttpFailure 429 quotaBody)));
     retryAction := Cancel;
     retryPrompt := None |}.

(** OpenAI answers 401 first and the audio on the second call, made with
    the key the user entered. *)
Definition retrySucceeds (audio : Orchestrator.Buffer) : Env :=
  {| activeEditor := Some "Hello world";
     config := settings openai;
     firstPrompt := None;
     cancellation := fun _ => false;
     backend := fun attempt _ =>
       if Nat.eqb attempt 0 then Rejected (ErrorObject (openaiMessage 401 None))
       else Resolved audio;
     retryAction := UpdateKey;
     retryPrompt := Some "sk-new" |}.

(** The token is already cancelled when the first task starts. *)
Definition cancelledAtOnce : Env :=
  {| activeEditor := Some "Hello world";
     config := settings openai;
     firstPrompt := None;
     cancellation := fun _ => true;
     backend := fun _ _ => Resolved [];
     retryAction := Dismissed;
     retryPrompt := None |}.

(** The local provider fails with a message that reads like a refusal. *)
Definition localDenied : Env :=
  {| activeEditor := Some "Hello world";
     config := settings local;
     firstPrompt := None;
     cancellation := fun _ => false;
     backend := fun _ _ => Rejected (ErrorObject "Access denied");
     retryAction := UpdateKey;
     retryPrompt := Some "sk-new" |}.

(** OpenAI is chosen and no key is stored; the user closes the input
    box. *)
Definition noKeyEntered : Env :=
  {| activeEditor := Some "Hello world";
     config :=
       {| provider := openai; openaiApiKey := ""; elevenlabsApiKey := "";
          azureApiKey := ""; azureRegion := "eastus"; voice := "nova";
          speed := 1; maxCharacters := 4096 |};
     firstPrompt := None;
     cancellation := fun _ => false;
     backend := fun _ _ => Resolved [];
     retryAction := Dismissed;
     retryPrompt := None |}.

End Scenarios.

(** * Properties *)

(** ** Strings *)

Section JsStringFacts.
Import JsString.

Lemma append_nil s : "" +:+ s = s.
Proof. reflexivity. Qed.

Lemma append_cons c a b : String c a +:+ b = String c (a +:+ b).
Proof. reflexivity. Qed.

Lemma toLowerCase_app a b :
  toLowerCase (a +:+ b) = toLowerCase a +:+ toLowerCase b.
Proof.
  induction a as [|c a IH]; [reflexivity|].
  rewrite append_cons. simpl. now rewrite IH, append_cons.
Qed.

Lemma lowerChar_idem c : lowerChar (lowerChar c) = lowerChar c.
Proof. destruct c as [[] [] [] [] [] [] [] []]; reflexivity. Qed.

Lemma toLowerCase_idem s : toLowerCase (toLowerCase s) = toLowerCase s.
Proof.
  induction s as [|c s IH]; simpl; [reflexivity|].
  now rewrite lowerChar_idem, IH.
Qed.

Lemma startsWith_app p b : startsWith (p +:+ b) p = true.
Proof.
  induction p as [|c p IH]; [reflexivity|].
  rewrite append_cons. simpl. now rewrite Ascii.eqb_refl, IH.
Qed.

Lemma startsWith_inv s p :
  startsWith s p = true -> exists b, s = p +:+ b.
Proof.
  revert s; induction p as [|c p IH]; intros s H.
  - exists s; reflexivity.
  - destruct s as [|d s]; simpl in H; [discriminate|].
    apply andb_true_iff in H as [Hc Hs].
    apply Ascii.eqb_eq in Hc; subst d.
    destruct (IH _ Hs) as [b ->]. exists b; reflexivity.
Qed.

Lemma includes_app a p b : includes (a +:+ p +:+ b) p = true.
Proof.
  induction a as [|c a IH].
  - rewrite append_nil.
    destruct (p +:+ b) eqn:E; simpl; rewrite <- E, startsWith_app; reflexivity.
  - rewrite append_cons. simpl. rewrite IH. apply orb_true_r.
Qed.

Lemma includes_inv s p :
  includes s p = true -> exists a b, s = a +:+ p +:+ b.
Proof.
  induction s as [|c s IH]; simpl; intros H.
  - rewrite orb_false_r in H. apply startsWith_inv in H as [b ->].
    exists "", b; reflexivity.
  - apply orb_true_iff in H as [H|H].
    + apply startsWith_inv in H as [b ->]. exists "", b; reflexivity.
    + destruct (IH H) as (a & b & ->). exists (String c a), b; reflexivity.
Qed.

(** [includes] is exactly "occurs as a contiguous substring". *)
Lemma includes_spec s p :
  includes s p = true <-> exists a b, s = a +:+ p +:+ b.
Proof.
  split; [apply includes_inv|]. intros (a & b & ->). apply includes_app.
Qed.

End JsStringFacts.

(** ** The classifier *)

Section AuthFacts.
Import JsString Auth.

Lemma isAuthenticationError_existsb m :
  isAuthenticationError m = existsb (includes (toLowerCase m)) needles.
Proof.
  unfold isAuthenticationError, needles, statusNeedles, markers; simpl.
  rewrite orb_false_r, !orb_assoc. reflexivity.
Qed.

Lemma needles_lower n : In n needles -> toLowerCase n = n.
Proof.
  unfold needles, statusNeedles, markers; simpl.
  intros H; repeat (destruct H as [<-|H]; [reflexivity|]); destruct H.
Qed.

(** A message with a needle somewhere in it, in whatever case, is
    classified as an authentication failure. *)
Lemma isAuthenticationError_needle n v pre post :
  In n needles -> toLowerCase v = n ->
  isAuthenticationError (pre +:+ v +:+ post) = true.
Proof.
  intros Hn Hv. rewrite isAuthenticationError_existsb.
  apply existsb_exists. exists n; split; [exact Hn|].
  rewrite !toLowerCase_app, Hv. apply includes_app.
Qed.

(** The classifier says no exactly when no needle occurs in the
    lower-cased message. *)
Lemma isAuthenticationError_false_iff m :
  isAuthenticationError m = false <->
  forall n, In n needles -> includes (toLowerCase m) n = false.
Proof.
  rewrite isAuthenticationError_existsb. split.
  - intros H n Hn. destruct (includes (toLowerCase m) n) eqn:E; [|reflexivity].
    rewrite <- H. symmetry. apply existsb_exists. now exists n.
  - intros H. destruct (existsb _ _) eqn:E; [|reflexivity].
    apply existsb_exists in E as (n & Hn & Hi). now rewrite H in Hi.
Qed.

Lemma markers_needles m : In m markers -> In m needles.
Proof. intros H. unfold needles. apply in_or_app. now right. Qed.

Lemma statusNeedles_needles c : In c statusNeedles -> In c needles.
Proof. intros H. unfold needles. apply in_or_app. now left. Qed.

Lemma statusRange_In from count c :
  (from <= c < from + N.of_nat count)%N -> In c (statusRange from count).
Proof.
  revert from; induction count as [|n IH]; intros from H; [lia|].
  simpl. destruct (N.eq_dec from c) as [->|Hne]; [now left|].
  right. apply IH. lia.
Qed.

(** C2. Each documented marker phrase, in any letter case and anywhere in
    the message, makes [isAuthenticationError] answer true; so does "401" or
    "403" anywhere in the message, hence every message a provider builds from
    status 401 or 403 alone; the messages built from a 5xx status alone and
    the usual time-out messages make it answer false. *)
Theorem isAuthenticationError_signature :
  (forall marker v pre post,
      In marker markers -> toLowerCase v = marker ->
      isAuthenticationError (pre +:+ v +:+ post) = true) /\
  (forall code pre post,
      In code statusNeedles ->
      isAuthenticationError (pre +:+ code +:+ post) = true) /\
  (forall statusCode errorBody,
      statusCode = 401%N \/ statusCode = 403%N ->
      isAuthenticationError (openaiMessage statusCode None) = true /\
      isAuthenticationError (elevenlabsMessage statusCode None) = true /\
      isAuthenticationError (azureMessage statusCode errorBody) = true) /\
  (forall statusCode,
      (500 <= statusCode <= 599)%N ->
      isAuthenticationError (openaiMessage statusCode None) = false /\
      isAuthenticationError (elevenlabsMessage statusCode None) = false /\
      isAuthenticationError (azureMessage statusCode "Internal Server Error") = false) /\
  isAuthenticationError "connect ETIMEDOUT 20.42.65.92:443" = false /\
  isAuthenticationError "socket hang up" = false /\
  isAuthenticationError "Request timed out" = false.
Proof.
  split; [|split; [|split; [|split]]].
  - intros marker v pre post Hm Hv.
    apply isAuthenticationError_needle with (n := marker); [|exact Hv].
    now apply markers_needles.
  - intros code pre post Hc.
    apply isAuthenticationError_needle with (n := code).
    + now apply statusNeedles_needles.
    + apply needles_lower. now apply statusNeedles_needles.
  - intros statusCode errorBody Hs.
    assert (Hazure : forall code, In code statusNeedles ->
              isAuthenticationError ("Azure API error: " +:+ code +:+ " - " +:+ errorBody) = true).
    { intros code Hc. apply isAuthenticationError_needle with (n := code).
      - now apply statusNeedles_needles.
      - apply needles_lower. now apply statusNeedles_needles. }
    destruct Hs as [-> | ->]; (split; [reflexivity | split; [reflexivity |]]).
    + apply (Hazure "401"). simpl; tauto.
    + apply (Hazure "403"). simpl; tauto.
  - intros statusCode Hr.
    assert (Hall : forallb (fun c =>
              negb (isAuthenticationError (openaiMessage c None)) &&
              negb (isAuthenticationError (elevenlabsMessage c None)) &&
              negb (isAuthenticationError (azureMessage c "Internal Server Error")))
              (statusRange 500 100) = true) by (vm_compute; reflexivity).
    rewrite forallb_forall in Hall.
    specialize (Hall statusCode (statusRange_In 500 100 statusCode ltac:(lia))).
    apply andb_true_iff in Hall as [Hall H3].
    apply andb_true_iff in Hall as [H1 H2].
    apply negb_true_iff in H1, H2, H3. now repeat split.
  - repeat split; vm_compute; reflexivity.
Qed.

(** The marker "invalid api key", capitalised, inside a longer message. *)
Lemma isAuthenticationError_signature_witness :
  isAuthenticationError ("Error: " +:+ "Invalid API Key" +:+ " provided") = true.
Proof.
  apply (proj1 isAuthenticationError_signature "invalid api key");
    [simpl; tauto | reflexivity].
Defined.

End AuthFacts.

(** ** The orchestrator *)

Section OrchestratorFacts.
Import JsString Auth Orchestrator.

Lemma attemptTask_fst env text attempt apiKey :
  fst (attemptTask env text attempt apiKey) =
  if cancellation env attempt
  then [ProgressReport (progressText (provider (config env)))]
  else [ProgressReport (progressText (provider (config env)));
        synthesizeCall env text apiKey].
Proof. unfold attemptTask. now destruct (cancellation env attempt). Qed.

Lemma attemptTask_snd env text attempt apiKey :
  snd (attemptTask env text attempt apiKey) =
  if cancellation env attempt
  then Rejected (ErrorObject "Cancelled")
  else backend env attempt apiKey.
Proof. unfold attemptTask. now destruct (cancellation env attempt). Qed.

(** The second iteration never retries: it returns the audio, or returns
    silently on "Cancelled", or shows the message. *)
Lemma attempts_final env text apiKey :
  attempts env text 1 1 apiKey =
  let task := attemptTask env text 1 apiKey in
  match snd task with
  | Resolved audio => {| result := Some audio; effects := fst task |}
  | Rejected e =>
    if String.eqb (errorMessage e) "Cancelled"
    then {| result := None; effects := fst task |}
    else {| result := None;
            effects := fst task ++ [ShowErrorMessage ("Eloquent: " +:+ errorMessage e)] |}
  end.
Proof.
  cbn [attempts].
  destruct (attemptTask env text 1 apiKey) as [done settled]; cbn [fst snd].
  destruct settled as [audio|e]; [reflexivity|].
  destruct (String.eqb (errorMessage e) "Cancelled"); [reflexivity|].
  cbn [Nat.eqb]. now rewrite andb_false_r.
Qed.

Lemma attempts_final_calls env text apiKey :
  calls (attempts env text 1 1 apiKey) = if cancellation env 1 then 0 else 1.
Proof.
  rewrite attempts_final. cbn zeta.
  rewrite attemptTask_fst, attemptTask_snd. unfold calls.
  destruct (cancellation env 1); [reflexivity|].
  destruct (backend env 1 apiKey) as [audio|e]; [reflexivity|].
  destruct (String.eqb (errorMessage e) "Cancelled"); reflexivity.
Qed.

Lemma attempts_final_no_ask env text apiKey :
  existsb isAskUpdateKey (effects (attempts env text 1 1 apiKey)) = false.
Proof.
  rewrite attempts_final. cbn zeta.
  rewrite attemptTask_fst, attemptTask_snd.
  destruct (cancellation env 1); [reflexivity|].
  destruct (backend env 1 apiKey) as [audio|e]; [reflexivity|].
  destruct (String.eqb (errorMessage e) "Cancelled"); reflexivity.
Qed.

(** The first iteration, with the second one left folded. *)
Lemma attempts_first env text apiKey :
  attempts env text 2 0 apiKey =
  let providerType := provider (config env) in
  let task := attemptTask env text 0 apiKey in
  match snd task with
  | Resolved audio => {| result := Some audio; effects := fst task |}
  | Rejected e =>
    let message := errorMessage e in
    if String.eqb message "Cancelled"
    then {| result := None; effects := fst task |}
    else if negb (isLocal providerType) && isAuthenticationError message then
      match retryAction env with
      | UpdateKey =>
        let prompted :=
          fst task ++ [AskUpdateKey (invalidKeyText providerType);
                       PromptForApiKey providerType] in
        match retryPrompt env with
        | Some entered =>
          if truthy (Some entered) then
            {| result := result (attempts env text 1 1 entered);
               effects := prompted ++ effects (attempts env text 1 1 entered) |}
          else {| result := None; effects := prompted |}
        | None => {| result := None; effects := prompted |}
        end
      | _ =>
        {| result := None;
           effects := fst task ++ [AskUpdateKey (invalidKeyText providerType);
                                   ShowErrorMessage ("Eloquent: " +:+ message)] |}
      end
    else {| result := None;
            effects := fst task ++ [ShowErrorMessage ("Eloquent: " +:+ message)] |}
  end.
Proof.
  change (attempts env text 2 0 apiKey) with
    (let providerType := provider (config env) in
     let '(done, settled) := attemptTask env text 0 apiKey in
     match settled with
     | Resolved audioBuffer => {| result := Some audioBuffer; effects := done |}
     | Rejected error =>
       let message := errorMessage error in
       if String.eqb message "Cancelled" then {| result := None; effects := done |}
       else
         if negb (isLocal providerType) && Nat.eqb 0 0 && isAuthenticationError message
         then
           match retryAction env with
           | UpdateKey =>
             match retryPrompt env with
             | Some entered =>
               if truthy (Some entered) then
                 {| result := result (attempts env text 1 1 entered);
                    effects :=
                      (done ++ [AskUpdateKey (invalidKeyText providerType);
                                PromptForApiKey providerType]) ++
                      effects (attempts env text 1 1 entered) |}
               else {| result := None;
                       effects := done ++ [AskUpdateKey (invalidKeyText providerType);
                                           PromptForApiKey providerType] |}
             | None => {| result := None;
                          effects := done ++ [AskUpdateKey (invalidKeyText providerType);
                                              PromptForApiKey providerType] |}
             end
           | _ => {| result := None;
                     effects := done ++ [AskUpdateKey (invalidKeyText providerType);
                                         ShowErrorMessage ("Eloquent: " +:+ message)] |}
           end
         else {| result := None;
                 effects := done ++ [ShowErrorMessage ("Eloquent: " +:+ message)] |}
     end).
  cbv zeta. destruct (attemptTask env text 0 apiKey) as [done settled]; cbn [fst snd].
  destruct settled as [audio|e]; [reflexivity|].
  cbn [Nat.eqb]. rewrite andb_true_r. reflexivity.
Qed.

Lemma calls_app r1 r2 l1 l2 :
  calls {| result := r1; effects := l1 ++ l2 |} =
  calls {| result := r2; effects := l1 |} + length (List.filter isSynthesize l2).
Proof. unfold calls; cbn [effects]. now rewrite List.filter_app, length_app. Qed.

(** How many synthesis calls the loop issues. *)
Lemma attempts_calls env text apiKey :
  calls (attempts env text 2 0 apiKey) =
  if retryFrom env text apiKey then (if cancellation env 1 then 1 else 2)
  else if cancellation env 0 then 0 else 1.
Proof.
  rewrite attempts_first. unfold retryFrom, offersRetryFrom, failureOf. cbv zeta.
  rewrite attemptTask_fst, attemptTask_snd.
  destruct (cancellation env 0); [reflexivity|].
  destruct (backend env 0 apiKey) as [audio|e]; [reflexivity|].
  destruct (String.eqb (errorMessage e) "Cancelled"); [reflexivity|].
  cbn [negb andb].
  destruct (negb (isLocal (provider (config env))) && isAuthenticationError (errorMessage e));
    [|reflexivity].
  cbn [andb].
  destruct (retryAction env); try reflexivity.
  destruct (retryPrompt env) as [entered|]; [|reflexivity].
  destruct (truthy (Some entered)); [|reflexivity].
  rewrite (calls_app _ None). fold (calls (attempts env text 1 1 entered)).
  rewrite attempts_final_calls.
  destruct (cancellation env 1); reflexivity.
Qed.

(** Whether the loop shows the "key appears invalid" notification. *)
Lemma attempts_ask env text apiKey :
  existsb isAskUpdateKey (effects (attempts env text 2 0 apiKey)) =
  offersRetryFrom env text apiKey.
Proof.
  rewrite attempts_first. unfold offersRetryFrom, failureOf. cbv zeta.
  rewrite attemptTask_fst, attemptTask_snd.
  destruct (cancellation env 0); [reflexivity|].
  destruct (backend env 0 apiKey) as [audio|e]; [reflexivity|].
  destruct (String.eqb (errorMessage e) "Cancelled"); [reflexivity|].
  cbn [negb andb].
  destruct (negb (isLocal (provider (config env))) && isAuthenticationError (errorMessage e));
    [|reflexivity].
  destruct (retryAction env); try reflexivity.
  destruct (retryPrompt env) as [entered|]; [|reflexivity].
  destruct (truthy (Some entered)); reflexivity.
Qed.

(** The run is the loop, once the request is valid and a key is at hand. *)
Lemma synthesizeFromSelection_loop env :
  match validRequest env, initialKey env with
  | Some text, Some apiKey =>
    result (synthesizeFromSelection env) = result (attempts env text 2 0 apiKey) /\
    (effects (synthesizeFromSelection env) = effects (attempts env text 2 0 apiKey) \/
     effects (synthesizeFromSelection env) =
       PromptForApiKey (provider (config env)) :: effects (attempts env text 2 0 apiKey))
  | _, _ =>
    result (synthesizeFromSelection env) = None /\
    exists e, effects (synthesizeFromSelection env) = [e] /\ isSynthesize e = false
              /\ isAskUpdateKey e = false
  end.
Proof.
  unfold synthesizeFromSelection, validRequest, initialKey, failWith.
  destruct (activeEditor env) as [text|]; [|split; eauto].
  destruct (String.eqb text ""); [split; eauto|].
  destruct (_ <? _)%Z; [split; eauto|].
  destruct (isLocal (provider (config env))); [split; auto|].
  destruct (truthy (Some (getProviderApiKey _ _))); [split; auto|].
  destruct (firstPrompt env) as [entered|]; [|split; eauto].
  destruct (truthy (Some entered)); [split; auto|split; eauto].
Qed.

Lemma synthesizeFromSelection_calls env :
  calls (synthesizeFromSelection env) =
  match validRequest env, initialKey env with
  | Some text, Some apiKey => calls (attempts env text 2 0 apiKey)
  | _, _ => 0
  end.
Proof.
  pose proof (synthesizeFromSelection_loop env) as H. unfold calls.
  destruct (validRequest env) as [text|], (initialKey env) as [apiKey|];
    try (destruct H as (_ & e & -> & He & _); cbn; now rewrite He).
  destruct H as (_ & [-> | ->]); reflexivity.
Qed.

Lemma synthesizeFromSelection_ask env :
  existsb isAskUpdateKey (effects (synthesizeFromSelection env)) = offersRetry env.
Proof.
  pose proof (synthesizeFromSelection_loop env) as H. unfold offersRetry.
  destruct (validRequest env) as [text|], (initialKey env) as [apiKey|];
    try (destruct H as (_ & e & -> & _ & He); cbn; now rewrite He).
  destruct H as (_ & [-> | ->]); cbn [existsb isAskUpdateKey orb];
    apply attempts_ask.
Qed.

(** A failure that is not retried ends the loop: one call, then the
    message. *)
Lemma attempts_terminal env text attempt apiKey message :
  attempt < 2 ->
  failureOf env text attempt apiKey = Some message ->
  message <> "Cancelled" ->
  attempt = 1 \/ isAuthenticationError message = false ->
  attempts env text (2 - attempt) attempt apiKey =
  {| result := None;
     effects := [ProgressReport (progressText (provider (config env)));
                 synthesizeCall env text apiKey;
                 ShowErrorMessage ("Eloquent: " +:+ message)] |}.
Proof.
  intros Hlt Hfail Hne Hcase. unfold failureOf in Hfail.
  assert (Hc : cancellation env attempt = false).
  { rewrite attemptTask_snd in Hfail. destruct (cancellation env attempt); [|reflexivity].
    cbn in Hfail. congruence. }
  assert (Heqb : String.eqb message "Cancelled" = false)
    by now apply String.eqb_neq.
  destruct attempt as [|[|n]]; [| |lia].
  - destruct Hcase as [?|Hauth]; [discriminate|].
    cbn [Nat.sub]. rewrite attempts_first. cbv zeta.
    rewrite attemptTask_fst, Hc.
    destruct (snd (attemptTask env text 0 apiKey)) as [audio|e]; [discriminate|].
    injection Hfail as ->. now rewrite Heqb, Hauth, andb_false_r.
  - cbn [Nat.sub]. rewrite attempts_final. cbv zeta.
    rewrite attemptTask_fst, Hc.
    destruct (snd (attemptTask env text 1 apiKey)) as [audio|e]; [discriminate|].
    injection Hfail as ->. now rewrite Heqb.
Qed.

(** C1, as the code has it. A run issues at most one synthesis call unless
    the auth-retry path is taken; on that path it issues two, or one when the
    second attempt is cancelled before dispatch. A failure on the second
    attempt, or a first failure without the authentication signature, ends
    the loop after its one call and is shown as "Eloquent: " followed by the
    underlying message, provided that message is not "Cancelled". *)
Theorem synthesis_call_budget env :
  (authRetryTaken env = false -> calls (synthesizeFromSelection env) <= 1) /\
  (authRetryTaken env = true ->
   calls (synthesizeFromSelection env) = if cancellation env 1 then 1 else 2) /\
  (forall text attempt apiKey message,
      attempt < 2 ->
      failureOf env text attempt apiKey = Some message ->
      message <> "Cancelled" ->
      attempt = 1 \/ isAuthenticationError message = false ->
      attempts env text (2 - attempt) attempt apiKey =
      {| result := None;
         effects := [ProgressReport (progressText (provider (config env)));
                     synthesizeCall env text apiKey;
                     ShowErrorMessage ("Eloquent: " +:+ message)] |}).
Proof.
  split; [|split].
  - rewrite synthesizeFromSelection_calls. unfold authRetryTaken.
    destruct (validRequest env) as [text|], (initialKey env) as [apiKey|]; try lia.
    intros Hno. rewrite attempts_calls, Hno.
    destruct (cancellation env 0); lia.
  - rewrite synthesizeFromSelection_calls. unfold authRetryTaken.
    destruct (validRequest env) as [text|], (initialKey env) as [apiKey|];
      try discriminate.
    intros Hyes. now rewrite attempts_calls, Hyes.
  - intros text attempt apiKey message. apply attempts_terminal.
Qed.

(** The retry path with a second call that succeeds: two calls. *)
Lemma synthesis_call_budget_witness :
  calls (synthesizeFromSelection (Scenarios.retrySucceeds [])) = 2.
Proof.
  apply (proj1 (proj2 (synthesis_call_budget (Scenarios.retrySucceeds [])))).
  vm_compute. reflexivity.
Defined.

(** C1 as stated fails twice over. On the auth-retry path the second
    attempt may be cancelled before dispatch, and then one call is made, not
    two. And a failure whose message is "Cancelled", which carries no
    authentication signature, is not shown at all. *)
Lemma synthesis_call_budget_counterexample :
  (authRetryTaken Scenarios.retryThenCancelled = true /\
   calls (synthesizeFromSelection Scenarios.retryThenCancelled) = 1) /\
  (cancellation Scenarios.backendSaysCancelled 0 = false /\
   failureOf Scenarios.backendSaysCancelled "Hello world" 0 "sk-old" = Some "Cancelled" /\
   isAuthenticationError "Cancelled" = false /\
   calls (synthesizeFromSelection Scenarios.backendSaysCancelled) = 1 /\
   notices (synthesizeFromSelection Scenarios.backendSaysCancelled) = []).
Proof. vm_compute. repeat split; reflexivity. Qed.

(** C3, as the code has it. The classifier answers false exactly for the
    messages in which none of "401", "403" and the marker phrases occurs,
    whatever the letter case, and the "key appears invalid" notification is
    shown exactly when the first attempt of a valid request fails, not by
    cancellation, for a provider other than the local one, with a message the
    classifier answers true for. So a failure whose text has no such
    occurrence never leads to the re-prompt. *)
Theorem reprompt_only_on_signature env :
  (forall message,
      isAuthenticationError message = false <->
      forall needle, In needle needles ->
                     ~ exists pre post, toLowerCase message = pre +:+ needle +:+ post) /\
  existsb isAskUpdateKey (effects (synthesizeFromSelection env)) = offersRetry env /\
  (forall text apiKey message,
      validRequest env = Some text -> initialKey env = Some apiKey ->
      failureOf env text 0 apiKey = Some message ->
      isAuthenticationError message = false ->
      existsb isAskUpdateKey (effects (synthesizeFromSelection env)) = false).
Proof.
  split; [|split].
  - intros message. rewrite isAuthenticationError_false_iff.
    split; intros H needle Hn.
    + rewrite <- includes_spec. now rewrite (H needle Hn).
    + specialize (H needle Hn). rewrite <- includes_spec in H.
      now destruct (includes (toLowerCase message) needle).
  - apply synthesizeFromSelection_ask.
  - intros text apiKey message Hv Hk Hf Hauth.
    rewrite synthesizeFromSelection_ask. unfold offersRetry, offersRetryFrom.
    now rewrite Hv, Hk, Hf, Hauth, andb_false_r.
Qed.

(** A 500 from OpenAI on the first attempt: no re-prompt. *)
Lemma reprompt_only_on_signature_witness :
  existsb isAskUpdateKey
    (effects (synthesizeFromSelection
       {| activeEditor := Some "Hello world";
          config := Scenarios.settings openai;
          firstPrompt := None;
          cancellation := fun _ => false;
          backend := fun _ _ => Rejected (ErrorObject (openaiMessage 500 None));
          retryAction := UpdateKey;
          retryPrompt := Some "sk-new" |})) = false.
Proof.
  eapply (proj2 (proj2 (reprompt_only_on_signature _)) "Hello world" "sk-old");
    vm_compute; reflexivity.
Defined.

(** C3 as stated fails: a quota failure (HTTP 429 from Azure) whose body
    contains "401" is classified as an authentication failure, and the
    re-prompt is shown. *)
Lemma reprompt_on_transient_counterexample :
  transient (HttpFailure 429 Scenarios.quotaBody) = true /\
  isAuthenticationError (azureFailureMessage (HttpFailure 429 Scenarios.quotaBody)) = true /\
  existsb isAskUpdateKey (effects (synthesizeFromSelection Scenarios.azureQuota)) = true.
Proof. vm_compute. repeat split; reflexivity. Qed.

(** C4. When the token is already set at the check of an attempt, that
    attempt reports progress and nothing else: the loop returns no audio, no
    synthesis call is issued and no error is shown. For the first attempt of
    a valid request this is the whole run: zero calls, no error notice. *)
Theorem cancelled_before_dispatch env text apiKey :
  (forall remaining attempt key,
      cancellation env attempt = true ->
      attempts env text (S remaining) attempt key =
      {| result := None;
         effects := [ProgressReport (progressText (provider (config env)))] |}) /\
  (validRequest env = Some text -> initialKey env = Some apiKey ->
   cancellation env 0 = true ->
   result (synthesizeFromSelection env) = None /\
   calls (synthesizeFromSelection env) = 0 /\
   notices (synthesizeFromSelection env) = []).
Proof.
  assert (Hloop : forall remaining attempt key,
      cancellation env attempt = true ->
      attempts env text (S remaining) attempt key =
      {| result := None;
         effects := [ProgressReport (progressText (provider (config env)))] |}).
  { intros remaining attempt key Hc. cbn [attempts]. unfold attemptTask.
    rewrite Hc. reflexivity. }
  split; [exact Hloop|].
  intros Hv Hk Hc.
  pose proof (synthesizeFromSelection_loop env) as H. rewrite Hv, Hk in H.
  unfold calls, notices. rewrite (Hloop 1 0 apiKey Hc) in H.
  destruct H as (-> & [-> | ->]); repeat split; reflexivity.
Qed.

Lemma cancelled_before_dispatch_witness :
  result (synthesizeFromSelection Scenarios.cancelledAtOnce) = None /\
  calls (synthesizeFromSelection Scenarios.cancelledAtOnce) = 0 /\
  notices (synthesizeFromSelection Scenarios.cancelledAtOnce) = [].
Proof.
  apply (proj2 (cancelled_before_dispatch Scenarios.cancelledAtOnce "Hello world" "sk-old"));
    vm_compute; reflexivity.
Defined.

(** C10. An attempt that fails with the message "Cancelled" ends the run
    with no audio, no error notice and no re-prompt, whether the message
    comes from the token check or from the backend; in the latter case the
    call has been made and its failure is dropped. *)
Theorem cancelled_message_swallowed env text remaining attempt apiKey :
  failureOf env text attempt apiKey = Some "Cancelled" ->
  attempts env text (S remaining) attempt apiKey =
  {| result := None; effects := fst (attemptTask env text attempt apiKey) |} /\
  notices (attempts env text (S remaining) attempt apiKey) = [] /\
  (cancellation env attempt = false ->
   effects (attempts env text (S remaining) attempt apiKey) =
   [ProgressReport (progressText (provider (config env)));
    synthesizeCall env text apiKey]).
Proof.
  intros Hfail. unfold failureOf in Hfail.
  assert (Heq : attempts env text (S remaining) attempt apiKey =
                {| result := None; effects := fst (attemptTask env text attempt apiKey) |}).
  { cbn [attempts].
    destruct (attemptTask env text attempt apiKey) as [done settled]; cbn [fst snd] in *.
    destruct settled as [audio|e]; [discriminate|].
    injection Hfail as ->. reflexivity. }
  rewrite Heq. unfold notices. cbn [effects]. rewrite attemptTask_fst.
  split; [reflexivity|].
  destruct (cancellation env attempt); split; try reflexivity; discriminate.
Qed.

Lemma cancelled_message_swallowed_witness :
  notices (attempts Scenarios.backendSaysCancelled "Hello world" 2 0 "sk-old") = [].
Proof.
  apply (cancelled_message_swallowed Scenarios.backendSaysCancelled "Hello world" 1 0 "sk-old").
  vm_compute. reflexivity.
Defined.

(** The scenario of the specification: 401 on the first attempt, a new
    credential, and the audio of the second attempt is what comes back. *)
Example retry_returns_second_audio :
  let out := synthesizeFromSelection (Scenarios.retrySucceeds [Byte.x49]) in
  result out = Some [Byte.x49] /\
  calls out = 2 /\
  List.filter isSynthesize (effects out) =
    [Synthesize openai "sk-old" "eastus" "Hello world" "nova" 1;
     Synthesize openai "sk-new" "eastus" "Hello world" "nova" 1].
Proof. vm_compute. repeat split; reflexivity. Qed.

(** A selection longer than the configured bound: the error is shown and
    no call is made. *)
Example too_long_selection :
  let env :=
    {| activeEditor := Some "Hello world";
       config :=
         {| provider := openai; openaiApiKey := "sk-old"; elevenlabsApiKey := "";
            azureApiKey := ""; azureRegion := "eastus"; voice := "nova";
            speed := 1; maxCharacters := 5 |};
       firstPrompt := None;
       cancellation := fun _ => false;
       backend := fun _ _ => Resolved [];
       retryAction := Dismissed;
       retryPrompt := None |} in
  synthesizeFromSelection env =
  {| result := None;
     effects := [ShowErrorMessage
       "Selected text exceeds maximum of 5 characters. You can adjust this in settings."] |}.
Proof. vm_compute. reflexivity. Qed.

End OrchestratorFacts.

(** ** The playback session *)

Section HybridFacts.
Import JsString Hybrid.

Ltac run :=
  unfold postMessage, mbind, M_bind, mret, M_ret, get, put, throw, tryCatch,
    modifyWorld, modifySelf; cbn [world self].

(** [cleanup] never throws and does what [afterCleanup] says. *)
Lemma cleanup_eq s : cleanup s = Return tt (afterCleanup s).
Proof.
  unfold cleanup, afterCleanup, existsSync, unlinkSync. run.
  destruct s as [w x]; cbn [world self].
  destruct (tempFile x) as [f|]; cbn [world self]; [|reflexivity].
  destruct (truthy (Some f)); cbn [andb world self]; [|reflexivity].
  destruct (onDisk w f) eqn:Hex; cbn [world self]; [|reflexivity].
  destruct (isBusy w f); cbn [world self]; [reflexivity|].
  rewrite Hex. reflexivity.
Qed.

Lemma play_eq audioData onStop now s :
  play audioData onStop now s =
  let s1 := beforeWrite onStop s in
  let path := tempPath (tmpdir (world s1)) now in
  match faults (world s1) !! path with
  | Some (message, leftover) =>
    Throw message
      {| world := match leftover with
                  | Some part =>
                    setFiles (<[path := part]> (files (world s1))) (Write path) (world s1)
                  | None => world s1
                  end;
         self := setTempFile (Some path) (self s1) |}
  | None =>
    Return tt
      {| world := setFiles (<[path := audioData]> (files (world s1))) (Write path) (world s1);
         self := {| panel := Some {| html := Some path; revealed := true |};
                    onDidStopCallback := onDidStopCallback (self s1);
                    tempFile := Some path |} |}
  end.
Proof.
  unfold play, beforeWrite. unfold mbind at 1, M_bind at 1.
  unfold modifySelf at 1. unfold mbind at 1, M_bind at 1.
  rewrite cleanup_eq. cbv zeta.
  set (s1 := afterCleanup _). unfold writeFileSync, createWebviewPanel. run.
  destruct (faults (world s1) !! tempPath (tmpdir (world s1)) now) as [[message leftover]|].
  - destruct leftover as [part|]; reflexivity.
  - cbn [world self setTempFile panel]. destruct (panel (self s1)); reflexivity.
Qed.

Lemma stop_eq s : stop s = Return tt (afterCleanup (afterStopMessage s)).
Proof.
  unfold stop, afterStopMessage. unfold mbind at 1, M_bind at 1. unfold get.
  destruct (panel (self s)); run; rewrite cleanup_eq; destruct s; reflexivity.
Qed.

Lemma fireOnDidStop_eq s :
  fireOnDidStop s =
  Return tt {| world := match onDidStopCallback (self s) with
                        | Some cb => call cb (world s)
                        | None => world s
                        end;
               self := self s |}.
Proof.
  unfold fireOnDidStop. run. destruct s as [w x]; cbn [world self].
  destruct (onDidStopCallback x); reflexivity.
Qed.

Lemma tempPath_truthy dir now : truthy (Some (tempPath dir now)) = true.
Proof.
  unfold truthy, tempPath, pathJoin.
  destruct dir as [|c dir]; [rewrite append_nil | rewrite append_cons]; reflexivity.
Qed.

(** [cleanup] touches the disk and the temp file reference, nothing else. *)
Lemma afterCleanup_frame s :
  tmpdir (world (afterCleanup s)) = tmpdir (world s) /\
  busy (world (afterCleanup s)) = busy (world s) /\
  faults (world (afterCleanup s)) = faults (world s) /\
  outbox (world (afterCleanup s)) = outbox (world s) /\
  invoked (world (afterCleanup s)) = invoked (world s) /\
  host (world (afterCleanup s)) = host (world s) /\
  panel (self (afterCleanup s)) = panel (self s) /\
  onDidStopCallback (self (afterCleanup s)) = onDidStopCallback (self s).
Proof.
  unfold afterCleanup. destruct (tempFile (self s)) as [f|]; [|tauto].
  destruct (truthy (Some f) && onDisk (world s) f); [|tauto].
  cbn [world self]. destruct (isBusy (world s) f); cbn; tauto.
Qed.

Lemma afterCleanup_idem s : afterCleanup (afterCleanup s) = afterCleanup s.
Proof.
  unfold afterCleanup at 2 3.
  destruct (tempFile (self s)) as [f|] eqn:Hf.
  - destruct (truthy (Some f) && onDisk (world s) f) eqn:Hc.
    + reflexivity.
    + unfold afterCleanup. now rewrite Hf, Hc.
  - unfold afterCleanup. now rewrite Hf.
Qed.

Lemma afterCleanup_empty s :
  files (world s) = ∅ -> afterCleanup s = s.
Proof.
  intros He. unfold afterCleanup. destruct (tempFile (self s)) as [f|]; [|reflexivity].
  assert (Hf : onDisk (world s) f = false).
  { unfold onDisk. rewrite He, lookup_empty. apply bool_decide_eq_false.
    intros [? ?]; discriminate. }
  now rewrite Hf, andb_false_r.
Qed.

(** A [play] that returns has written its file into the state [cleanup]
    left. *)
Lemma play_returns audioData onStop now s s' :
  play audioData onStop now s = Return tt s' ->
  let s1 := beforeWrite onStop s in
  let path := tempPath (tmpdir (world s)) now in
  faults (world s) !! path = None /\
  s' = {| world := setFiles (<[path := audioData]> (files (world s1))) (Write path) (world s1);
          self := {| panel := Some {| html := Some path; revealed := true |};
                     onDidStopCallback := onStop;
                     tempFile := Some path |} |}.
Proof.
  rewrite play_eq. cbv zeta.
  destruct (afterCleanup_frame {| world := world s; self := setCallback onStop (self s) |})
    as (Ht & _ & Hf & _ & _ & _ & _ & Hcb).
  unfold beforeWrite. rewrite Ht, Hf, Hcb. cbn [world self setCallback onDidStopCallback].
  destruct (faults (world s) !! tempPath (tmpdir (world s)) now) as [[message leftover]|];
    [discriminate|].
  intros H. injection H as <-. split; reflexivity.
Qed.

Lemma play_succeeds audioData onStop now s :
  let path := tempPath (tmpdir (world s)) now in
  faults (world s) !! path = None ->
  let s1 := beforeWrite onStop s in
  play audioData onStop now s =
  Return tt
    {| world := setFiles (<[path := audioData]> (files (world s1))) (Write path) (world s1);
       self := {| panel := Some {| html := Some path; revealed := true |};
                  onDidStopCallback := onStop;
                  tempFile := Some path |} |}.
Proof.
  cbv zeta. intros Hnone. rewrite play_eq. cbv zeta.
  destruct (afterCleanup_frame {| world := world s; self := setCallback onStop (self s) |})
    as (Ht & _ & Hf & _ & _ & _ & _ & Hcb).
  unfold beforeWrite. rewrite Ht, Hf, Hcb. cbn [world self setCallback onDidStopCallback].
  now rewrite Hnone.
Qed.

(** C5, as the code has it. After a [play] that returned, a second [play]
    whose write does not fail returns too, provided the first file can be
    deleted: then the stored callback is the second one, the first file is
    deleted before the second is written, and of the two files only the
    second is on disk; on a disk that was empty it is the only file. *)
Theorem play_twice s0 s1 d1 d2 cb1 cb2 t1 t2 :
  play d1 cb1 t1 s0 = Return tt s1 ->
  isBusy (world s0) (tempPath (tmpdir (world s0)) t1) = false ->
  faults (world s0) !! tempPath (tmpdir (world s0)) t2 = None ->
  let p1 := tempPath (tmpdir (world s0)) t1 in
  let p2 := tempPath (tmpdir (world s0)) t2 in
  exists s2,
    play d2 cb2 t2 s1 = Return tt s2 /\
    onDidStopCallback (self s2) = cb2 /\
    tempFile (self s2) = Some p2 /\
    files (world s2) = <[p2 := d2]> (delete p1 (files (world s1))) /\
    fsLog (world s2) = fsLog (world s1) ++ [Unlink p1; Write p2] /\
    (forall p, p = p1 \/ p = p2 -> (onDisk (world s2) p = true <-> p = p2)) /\
    (files (world s0) = ∅ -> files (world s2) = {[ p2 := d2 ]}).
Proof.
  intros Hplay Hbusy Hfault p1 p2.
  apply play_returns in Hplay. cbv zeta in Hplay. destruct Hplay as [_ Hs1].
  fold p1 in Hs1.
  destruct (afterCleanup_frame {| world := world s0; self := setCallback cb1 (self s0) |})
    as (Ht & Hb & Hf & _).
  fold (beforeWrite cb1 s0) in Ht, Hb, Hf. cbn [world] in Ht, Hb, Hf.
  set (w0 := world (beforeWrite cb1 s0)) in *.
  assert (Hw1 : world s1 = setFiles (<[p1 := d1]> (files w0)) (Write p1) w0)
    by now rewrite Hs1.
  assert (Hx1 : tempFile (self s1) = Some p1) by now rewrite Hs1.
  assert (Hdisk : onDisk (world s1) p1 = true).
  { rewrite Hw1. unfold onDisk. cbn [files setFiles]. rewrite lookup_insert_eq.
    apply bool_decide_eq_true. eauto. }
  assert (Hbusy1 : isBusy (world s1) p1 = false).
  { rewrite Hw1. unfold isBusy in *. cbn [busy setFiles]. now rewrite Hb. }
  assert (Hb2 : beforeWrite cb2 s1 =
                {| world := setFiles (delete p1 (files (world s1))) (Unlink p1) (world s1);
                   self := {| panel := panel (self s1); onDidStopCallback := cb2;
                              tempFile := None |} |}).
  { unfold beforeWrite, afterCleanup. cbn [world self setCallback tempFile].
    rewrite Hx1. unfold p1 at 1. rewrite tempPath_truthy. fold p1.
    rewrite Hdisk, Hbusy1. reflexivity. }
  assert (Hdir : tmpdir (world s1) = tmpdir (world s0)) by now rewrite Hw1.
  assert (Hfault1 : faults (world s1) !! p2 = None).
  { rewrite Hw1. cbn [faults setFiles]. now rewrite Hf. }
  eexists. split.
  { rewrite (play_succeeds d2 cb2 t2 s1); rewrite Hdir; fold p2; [|exact Hfault1].
    rewrite Hb2. cbn [world self files setFiles]. reflexivity. }
  cbn [world self files fsLog setFiles onDidStopCallback tempFile].
  repeat split.
  - now rewrite <- app_assoc.
  - intros Hon. destruct H as [-> | ->]; [|reflexivity].
    destruct (decide (p1 = p2)) as [Heq|Hne]; [exact Heq|].
    unfold onDisk in Hon. cbn [world files setFiles] in Hon.
    rewrite lookup_insert_ne, lookup_delete_eq in Hon by congruence.
    apply bool_decide_eq_true in Hon as [? ?]. discriminate.
  - intros ->. unfold onDisk. cbn [world files setFiles]. rewrite lookup_insert_eq.
    apply bool_decide_eq_true. eauto.
  - intros Hempty. rewrite Hw1. cbn [files setFiles].
    assert (Hw0 : files w0 = ∅).
    { unfold w0, beforeWrite. rewrite afterCleanup_empty; [exact Hempty|exact Hempty]. }
    rewrite Hw0, delete_insert_eq, delete_empty. apply insert_empty.
Qed.

Lemma play_twice_witness :
  exists s2,
    play [] None 2000 (stateOf (play [] None 1000 idle)) = Return tt s2 /\
    onDidStopCallback (self s2) = None /\
    tempFile (self s2) = Some (tempPath "/tmp" 2000) /\
    files (world s2) =
      <[tempPath "/tmp" 2000 := []]>
        (delete (tempPath "/tmp" 1000) (files (world (stateOf (play [] None 1000 idle))))) /\
    fsLog (world s2) =
      fsLog (world (stateOf (play [] None 1000 idle))) ++
      [Unlink (tempPath "/tmp" 1000); Write (tempPath "/tmp" 2000)] /\
    (forall p, p = tempPath "/tmp" 1000 \/ p = tempPath "/tmp" 2000 ->
               (onDisk (world s2) p = true <-> p = tempPath "/tmp" 2000)) /\
    (files (world idle) = ∅ -> files (world s2) = {[ tempPath "/tmp" 2000 := [] ]}).
Proof.
  apply (play_twice idle (stateOf (play [] None 1000 idle)) [] [] None None 1000 2000);
    vm_compute; reflexivity.
Defined.

(** C5 as stated fails when the first file cannot be deleted: [cleanup]
    swallows the error and drops the reference, and after the second [play]
    both files are on disk. *)
Lemma play_twice_counterexample :
  let s1 := stateOf (play [] None 1000 lockedIdle) in
  let s2 := stateOf (play [] None 2000 s1) in
  threw (play [] None 1000 lockedIdle) = None /\
  threw (play [] None 2000 s1) = None /\
  onDisk (world s2) (tempPath "/tmp" 1000) = true /\
  onDisk (world s2) (tempPath "/tmp" 2000) = true /\
  size (files (world s2)) = 2.
Proof. vm_compute. repeat split; reflexivity. Qed.

Lemma afterCleanup_post c s :
  afterCleanup {| world := post c (world s); self := self s |} =
  {| world := post c (world (afterCleanup s)); self := self (afterCleanup s) |}.
Proof.
  unfold afterCleanup. cbn [world self].
  destruct (tempFile (self s)) as [f|]; [|reflexivity].
  change (onDisk (post c (world s)) f) with (onDisk (world s) f).
  change (isBusy (post c (world s)) f) with (isBusy (world s) f).
  destruct (truthy (Some f) && onDisk (world s) f); [|reflexivity].
  cbn [world self]. destruct (isBusy (world s) f); reflexivity.
Qed.

Lemma afterCleanup_fixed a :
  afterCleanup a = a -> afterCleanup (afterStopMessage a) = afterStopMessage a.
Proof.
  intros Ha. unfold afterStopMessage. destruct (panel (self a)).
  - rewrite afterCleanup_post, Ha. reflexivity.
  - destruct a as [w x]. exact Ha.
Qed.

(** C6, as the code has it. [stop] never throws: it posts the stop message
    when there is a panel and then runs [cleanup], which deletes the temp
    file when it is on disk and can be deleted, and clears the reference. It
    does not invoke the stop callback. A second [stop] only posts the
    message again, and with no panel and no temp file [stop] changes
    nothing. *)
Theorem stop_total s :
  let s' := afterCleanup (afterStopMessage s) in
  stop s = Return tt s' /\
  outbox (world s') =
    outbox (world s) ++ match panel (self s) with Some _ => [stop_] | None => [] end /\
  (forall f, tempFile (self s) = Some f -> f <> "" -> onDisk (world s) f = true ->
             tempFile (self s') = None /\
             (isBusy (world s) f = false -> onDisk (world s') f = false)) /\
  invoked (world s') = invoked (world s) /\
  host (world s') = host (world s) /\
  stop s' = Return tt (afterStopMessage s') /\
  (panel (self s) = None -> tempFile (self s) = None -> s' = s).
Proof.
  cbv zeta.
  destruct (afterCleanup_frame (afterStopMessage s)) as (_ & _ & _ & Ho & Hi & Hh & Hp & _).
  split; [apply stop_eq|]. split; [|split; [|split; [|split; [|split]]]].
  - rewrite Ho. unfold afterStopMessage. cbn [world].
    destruct (panel (self s)); [reflexivity|]. now rewrite app_nil_r.
  - intros f Hf Hne Hdisk.
    assert (Ht : truthy (Some f) = true).
    { unfold truthy. apply negb_true_iff. now apply String.eqb_neq. }
    assert (Hd : onDisk (world (afterStopMessage s)) f = true).
    { unfold afterStopMessage. cbn [world]. now destruct (panel (self s)). }
    unfold afterCleanup. cbn [self afterStopMessage]. rewrite Hf, Ht, Hd.
    cbn [andb world self setTempFile tempFile]. split; [reflexivity|].
    intros Hb.
    assert (Hb' : isBusy (world (afterStopMessage s)) f = false).
    { unfold afterStopMessage. cbn [world]. now destruct (panel (self s)). }
    rewrite Hb'. unfold onDisk. cbn [files setFiles]. rewrite lookup_delete_eq.
    apply bool_decide_eq_false. intros [? ?]; discriminate.
  - rewrite Hi. unfold afterStopMessage. cbn [world]. now destruct (panel (self s)).
  - rewrite Hh. unfold afterStopMessage. cbn [world]. now destruct (panel (self s)).
  - rewrite stop_eq. f_equal. apply afterCleanup_fixed, afterCleanup_idem.
  - intros Hnp Hnt. unfold afterStopMessage. rewrite Hnp.
    unfold afterCleanup. cbn [world self]. rewrite Hnt. now destruct s.
Qed.

Lemma stop_total_witness :
  tempFile (self (afterCleanup (afterStopMessage playing))) = None /\
  (isBusy (world playing) (tempPath "/tmp" 1000) = false ->
   onDisk (world (afterCleanup (afterStopMessage playing))) (tempPath "/tmp" 1000) = false).
Proof.
  apply (proj1 (proj2 (proj2 (stop_total playing))) (tempPath "/tmp" 1000));
    vm_compute; [reflexivity | discriminate | reflexivity].
Defined.

(** C6 as stated fails: [stop] on a playing session does not invoke the
    stop callback, and the host still reads as playing until the caller
    resets it, as the stop command does. *)
Lemma stop_total_counterexample :
  onDidStopCallback (self playing) = Some onStopOfReadAloud /\
  threw (stop playing) = None /\
  invoked (world (stateOf (stop playing))) = 0 /\
  isPlaying (host (world (stateOf (stop playing)))) = true /\
  isPlaying (host (world (stateOf (stopCommand playing)))) = false.
Proof. vm_compute. repeat split; reflexivity. Qed.

(** C7, as the code has it. On [ended] or [stopped] from the webview the
    listener invokes the stored stop callback once and does nothing else: the
    callback of [readAloud] puts the host back to not playing, while the temp
    file stays on disk and stays referenced, so that the panel can replay or
    download it. *)
Theorem ended_fires_callback s message cb :
  message = ended \/ message = stopped ->
  onDidStopCallback (self s) = Some cb ->
  let s' := {| world := call cb (world s); self := self s |} in
  onDidReceiveMessage message s = Return tt s' /\
  invoked (world s') = S (invoked (world s)) /\
  host (world s') = cb (host (world s)) /\
  files (world s') = files (world s) /\
  fsLog (world s') = fsLog (world s) /\
  tempFile (self s') = tempFile (self s) /\
  (cb = onStopOfReadAloud ->
   isPlaying (host (world s')) = false /\ statusBarPlaying (host (world s')) = false).
Proof.
  intros Hm Hcb. cbv zeta.
  split.
  - destruct Hm as [-> | ->]; cbn [onDidReceiveMessage];
      rewrite fireOnDidStop_eq, Hcb; reflexivity.
  - cbn [world self call invoked host files fsLog]. repeat split; now subst cb.
Qed.

Lemma ended_fires_callback_witness :
  onDidReceiveMessage ended playing =
    Return tt {| world := call onStopOfReadAloud (world playing); self := self playing |} /\
  invoked (world {| world := call onStopOfReadAloud (world playing); self := self playing |}) = 1.
Proof.
  destruct (ended_fires_callback playing ended onStopOfReadAloud) as (H1 & H2 & _);
    [left; reflexivity | reflexivity |].
  split; [exact H1 | exact H2].
Defined.

(** C7 as stated fails: after [ended] the temp file is still on disk and
    the player still refers to it. *)
Lemma ended_keeps_temp_file_counterexample :
  let s' := stateOf (onDidReceiveMessage ended playing) in
  tempFile (self s') = Some (tempPath "/tmp" 1000) /\
  onDisk (world s') (tempPath "/tmp" 1000) = true /\
  invoked (world s') = 1.
Proof. vm_compute. repeat split; reflexivity. Qed.

Lemma setPlaying_eq b s :
  setPlaying b s =
  Return tt {| world := setHost {| isPlaying := b; statusBarPlaying := b;
                                   shown := shown (host (world s)) |} (world s);
               self := self s |}.
Proof. reflexivity. Qed.

(** C8, as the code has it. When the write of the temp file fails, [play]
    throws the error of the write before it touches the panel: no panel is
    created, no page is loaded and no message is posted. [readAloud] catches
    the error, puts the host back to not playing and shows the message,
    unless it reads "Cancelled". *)
Theorem play_write_failure s audioData onStop now message leftover :
  faults (world s) !! tempPath (tmpdir (world s)) now = Some (message, leftover) ->
  (exists s',
      play audioData onStop now s = Throw message s' /\
      panel (self s') = panel (self s) /\
      outbox (world s') = outbox (world s)) /\
  (message <> "Cancelled" ->
   exists s'',
     readAloud audioData now s = Return tt s'' /\
     panel (self s'') = panel (self s) /\
     outbox (world s'') = outbox (world s) /\
     isPlaying (host (world s'')) = false /\
     shown (host (world s'')) =
       shown (host (world s)) ++ [ErrorNotice ("Eloquent: " +:+ message)]).
Proof.
  intros Hfault.
  assert (Hplay : forall s0 cb,
    faults (world s0) !! tempPath (tmpdir (world s0)) now = Some (message, leftover) ->
    exists s',
      play audioData cb now s0 = Throw message s' /\
      panel (self s') = panel (self s0) /\
      outbox (world s') = outbox (world s0) /\
      host (world s') = host (world s0)).
  { intros s0 cb H0. rewrite play_eq. cbv zeta.
    destruct (afterCleanup_frame {| world := world s0; self := setCallback cb (self s0) |})
      as (Ht & _ & Hf & Ho & _ & Hh & Hp & _).
    fold (beforeWrite cb s0) in Ht, Hf, Ho, Hh, Hp.
    cbn [world self setCallback panel] in Ht, Hf, Ho, Hh, Hp.
    rewrite Ht, Hf, H0. eexists. split; [reflexivity|].
    cbn [world self setTempFile panel]. rewrite Hp.
    destruct leftover; cbn [outbox host setFiles]; rewrite Ho, Hh; auto. }
  split.
  - destruct (Hplay s onStop Hfault) as (s' & H1 & H2 & H3 & _). eauto.
  - intros Hne.
    unfold readAloud, tryCatch. unfold mbind at 1, M_bind at 1.
    rewrite setPlaying_eq.
    edestruct (Hplay {| world := setHost {| isPlaying := true; statusBarPlaying := true;
                                           shown := shown (host (world s)) |} (world s);
                       self := self s |} (Some onStopOfReadAloud))
      as (s' & H1 & H2 & H3 & H4); [exact Hfault|].
    rewrite H1. unfold mbind, M_bind. rewrite setPlaying_eq.
    apply String.eqb_neq in Hne. rewrite Hne.
    eexists. split; [reflexivity|].
    cbn [world self host setHost outbox isPlaying shown].
    rewrite H2, H3, H4. cbn [world self host setHost outbox isPlaying shown].
    auto.
Qed.

Lemma play_write_failure_witness :
  exists s',
    play [] None 1000 fullIdle = Throw "ENOSPC: no space left on device, write" s' /\
    panel (self s') = panel (self fullIdle) /\
    outbox (world s') = outbox (world fullIdle).
Proof.
  apply (proj1 (play_write_failure fullIdle [] None 1000
                  "ENOSPC: no space left on device, write" None ltac:(vm_compute; reflexivity))).
Defined.

(** C8 as stated fails: after the failed write the player refers to the
    path it could not write, where no file is, and the new callback is
    stored. *)
Lemma play_write_failure_counterexample :
  let r := play [] (Some onStopOfReadAloud) 1000 fullIdle in
  threw r = Some "ENOSPC: no space left on device, write" /\
  tempFile (self (stateOf r)) = Some (tempPath "/tmp" 1000) /\
  onDisk (world (stateOf r)) (tempPath "/tmp" 1000) = false /\
  onDidStopCallback (self (stateOf r)) = Some onStopOfReadAloud.
Proof. vm_compute. repeat split; reflexivity. Qed.

(** A session from start to natural end: [readAloud] writes the file and
    loads the panel, [ready] is answered with [play], and [ended] invokes the
    callback once, which puts the host back to not playing. *)
Example session_to_end :
  let s1 := stateOf (readAloud [] 1000 idle) in
  let s2 := stateOf (onDidReceiveMessage ready s1) in
  let s3 := stateOf (onDidReceiveMessage ended s2) in
  s1 = playing /\
  outbox (world s2) = [play_] /\
  invoked (world s3) = 1 /\
  isPlaying (host (world s3)) = false /\
  fsLog (world s3) = [Write (tempPath "/tmp" 1000)].
Proof. vm_compute. repeat split; reflexivity. Qed.

End HybridFacts.

(** ** Numbers *)

Section NumberFacts.
Import Number.
Local Open Scope Q_scope.

Lemma roundHalfEven_bounds t :
  (Qfloor t <= roundHalfEven t <= Qfloor t + 1)%Z.
Proof.
  unfold roundHalfEven.
  destruct (Qcompare _ _); [destruct (Z.even _)| |]; lia.
Qed.

Lemma roundHalfEven_mono t u : t <= u -> (roundHalfEven t <= roundHalfEven u)%Z.
Proof.
  intros H. pose proof (Qfloor_resp_le _ _ H) as Hf.
  destruct (Z.eq_dec (Qfloor t) (Qfloor u)) as [He|Hne].
  - unfold roundHalfEven. rewrite <- He.
    destruct (Qcompare (t - inject_Z (Qfloor t)) (1 # 2)) eqn:Ct;
    destruct (Qcompare (u - inject_Z (Qfloor t)) (1 # 2)) eqn:Cu;
      try (destruct (Z.even (Qfloor t))); try lia;
      first [apply (proj2 (Qeq_alt _ _)) in Ct | apply (proj2 (Qlt_alt _ _)) in Ct
            | apply (proj2 (Qgt_alt _ _)) in Ct];
      first [apply (proj2 (Qeq_alt _ _)) in Cu | apply (proj2 (Qlt_alt _ _)) in Cu
            | apply (proj2 (Qgt_alt _ _)) in Cu];
      exfalso; lra.
  - pose proof (roundHalfEven_bounds t). pose proof (roundHalfEven_bounds u). lia.
Qed.

Lemma roundHalfEven_Z z : roundHalfEven (inject_Z z) = z.
Proof.
  unfold roundHalfEven. rewrite Qfloor_Z.
  assert (H : inject_Z z - inject_Z z < 1 # 2) by lra.
  assert (C : (inject_Z z - inject_Z z ?= 1 # 2) = Lt) by now apply Qlt_alt.
  now rewrite C.
Qed.

Lemma roundHalfEven_le_Z t z : t <= inject_Z z -> (roundHalfEven t <= z)%Z.
Proof. intros H. apply roundHalfEven_mono in H. now rewrite roundHalfEven_Z in H. Qed.

Lemma roundHalfEven_ge_Z t z : inject_Z z <= t -> (z <= roundHalfEven t)%Z.
Proof. intros H. apply roundHalfEven_mono in H. now rewrite roundHalfEven_Z in H. Qed.

Lemma two_pow_pos e : 0 < 2 ^ e.
Proof. apply Qpower_0_lt. reflexivity. Qed.

Lemma two_pow_Z n : (0 <= n)%Z -> 2 ^ n == inject_Z (2 ^ n).
Proof. intros H. now rewrite Zpower_Qpower. Qed.

Lemma two_pow_sub a b : 2 ^ (a - b) == 2 ^ a / 2 ^ b.
Proof. apply Qpower_minus. discriminate. Qed.

Lemma ilog2_spec q : 0 < q -> 2 ^ ilog2 q <= q /\ q < 2 ^ (ilog2 q + 1).
Proof.
  intros Hq. unfold ilog2.
  set (n := Qnum q). set (d := Zpos (Qden q)).
  assert (Hn : (0 < n)%Z).
  { unfold Qlt in Hq. simpl in Hq. unfold n. lia. }
  assert (Hd : (0 < d)%Z) by (unfold d; lia).
  set (a := Z.log2 n). set (b := Z.log2 d).
  assert (Ha : (0 <= a)%Z) by apply Z.log2_nonneg.
  assert (Hb : (0 <= b)%Z) by apply Z.log2_nonneg.
  destruct (Z.log2_spec n Hn) as [Hn1 Hn2]. fold a in Hn1, Hn2.
  destruct (Z.log2_spec d Hd) as [Hd1 Hd2]. fold b in Hd1, Hd2.
  assert (Hqd : q * inject_Z d == inject_Z n).
  { unfold Qeq, inject_Z, Qmult. simpl. fold n. unfold d. lia. }
  assert (HQd : 0 < inject_Z d).
  { change 0 with (inject_Z 0). rewrite <- Zlt_Qlt. exact Hd. }
  rewrite Zle_Qle in Hn1, Hd1. rewrite Zlt_Qlt in Hn2, Hd2.
  rewrite <- two_pow_Z in Hn1, Hn2, Hd1, Hd2 by lia.
  pose proof (two_pow_pos a) as Pa. pose proof (two_pow_pos b) as Pb.
  pose proof (two_pow_pos (Z.succ a)) as Pa1. pose proof (two_pow_pos (Z.succ b)) as Pb1.
  assert (Hup : q < 2 ^ (a - b + 1)).
  { replace (a - b + 1)%Z with (Z.succ a - b)%Z by lia. rewrite two_pow_sub.
    apply Qlt_shift_div_l; [exact Pb|].
    apply Qle_lt_trans with (q * inject_Z d); [|rewrite Hqd; exact Hn2].
    apply Qmult_le_l; assumption. }
  assert (Hlo : 2 ^ (a - b - 1) <= q).
  { replace (a - b - 1)%Z with (a - Z.succ b)%Z by lia. rewrite two_pow_sub.
    apply Qle_shift_div_r; [exact Pb1|].
    apply Qle_trans with (q * inject_Z d); [rewrite Hqd; exact Hn1|].
    apply Qmult_le_l; [assumption|]. apply Qlt_le_weak; exact Hd2. }
  destruct (Qle_bool (2 ^ (a - b)) q) eqn:Hc.
  - apply Qle_bool_iff in Hc. split; assumption.
  - assert (Hlt : q < 2 ^ (a - b)).
    { apply Qnot_le_lt. intros Hle. apply Qle_bool_iff in Hle. congruence. }
    split; [exact Hlo|]. now replace (a - b - 1 + 1)%Z with (a - b)%Z by lia.
Qed.

Lemma ilog2_mono x y : 0 < x -> x <= y -> (ilog2 x <= ilog2 y)%Z.
Proof.
  intros Hx Hxy.
  destruct (ilog2_spec x Hx) as [Hx1 _].
  destruct (ilog2_spec y) as [_ Hy2]; [lra|].
  assert (H : 2 ^ ilog2 x < 2 ^ (ilog2 y + 1)) by lra.
  apply Qpower_lt_compat_l_inv in H; [lia | reflexivity].
Qed.

Lemma two_pow_split k e : (e <= k)%Z -> 2 ^ k == inject_Z (2 ^ (k - e)) * 2 ^ e.
Proof.
  intros H. rewrite <- two_pow_Z by lia. rewrite <- Qpower_plus by discriminate.
  now replace (k - e + e)%Z with k by lia.
Qed.

(** Rounding at exponent [e] does not cross a multiple of [2 ^ e]. *)
Lemma round_scaled_le x e z :
  x <= inject_Z z * 2 ^ e ->
  inject_Z (roundHalfEven (x / 2 ^ e)) * 2 ^ e <= inject_Z z * 2 ^ e.
Proof.
  intros H. pose proof (two_pow_pos e) as P.
  apply Qmult_le_compat_r; [|lra].
  rewrite <- Zle_Qle. apply roundHalfEven_le_Z.
  apply Qle_shift_div_r; assumption.
Qed.

Lemma round_scaled_ge x e z :
  inject_Z z * 2 ^ e <= x ->
  inject_Z z * 2 ^ e <= inject_Z (roundHalfEven (x / 2 ^ e)) * 2 ^ e.
Proof.
  intros H. pose proof (two_pow_pos e) as P.
  apply Qmult_le_compat_r; [|lra].
  rewrite <- Zle_Qle. apply roundHalfEven_ge_Z.
  apply Qle_shift_div_l; assumption.
Qed.

Lemma round_scaled_mono x y e :
  x <= y ->
  inject_Z (roundHalfEven (x / 2 ^ e)) * 2 ^ e <=
  inject_Z (roundHalfEven (y / 2 ^ e)) * 2 ^ e.
Proof.
  intros H. pose proof (two_pow_pos e) as P.
  apply Qmult_le_compat_r; [|lra].
  rewrite <- Zle_Qle. apply roundHalfEven_mono.
  apply Qmult_le_compat_r; [exact H|].
  apply Qlt_le_weak, Qinv_lt_0_compat, P.
Qed.

Lemma Qabs_nonneg_eq x : 0 <= x -> Qabs x = x.
Proof.
  destruct x as [n d]. unfold Qle, Qabs. simpl. intros H.
  now rewrite Z.abs_eq by lia.
Qed.

Lemma Qabs_nonpos_eq x : x <= 0 -> Qabs x = - x.
Proof.
  destruct x as [n d]. unfold Qle, Qabs, Qopp. simpl. intros H.
  now rewrite Z.abs_neq by lia.
Qed.

Lemma round_scaled_nonpos x e :
  x <= 0 -> inject_Z (roundHalfEven (x / 2 ^ e)) * 2 ^ e <= 0.
Proof.
  intros H. pose proof (round_scaled_le x e 0) as R.
  change (inject_Z 0) with 0 in R. rewrite Qmult_0_l in R. now apply R.
Qed.

Lemma round_scaled_nonneg x e :
  0 <= x -> 0 <= inject_Z (roundHalfEven (x / 2 ^ e)) * 2 ^ e.
Proof.
  intros H. pose proof (round_scaled_ge x e 0) as R.
  change (inject_Z 0) with 0 in R. rewrite Qmult_0_l in R. now apply R.
Qed.

(** Two positive numbers in different binades are separated by a power of
    two that both roundings respect. *)
Lemma binary64_mono_pos x y : 0 < x -> x <= y -> binary64 x <= binary64 y.
Proof.
  intros Hx Hxy. unfold binary64, ulpExponent. cbv zeta.
  rewrite (Qabs_nonneg_eq x), (Qabs_nonneg_eq y) by lra.
  pose proof (ilog2_mono x y Hx Hxy) as Hm.
  set (ex := Z.max (ilog2 x - 52) (-1074)).
  set (ey := Z.max (ilog2 y - 52) (-1074)).
  destruct (Z.eq_dec ex ey) as [He|Hne].
  - rewrite <- He. now apply round_scaled_mono.
  - assert (Hlt : (ex < ey)%Z) by lia.
    assert (Hey : ey = (ilog2 y - 52)%Z) by lia.
    assert (Hk : (ilog2 x + 1 <= ilog2 y)%Z) by lia.
    destruct (ilog2_spec x Hx) as [_ Hx2].
    destruct (ilog2_spec y) as [Hy1 _]; [lra|].
    assert (Hxb : x <= 2 ^ ilog2 y).
    { apply Qle_trans with (2 ^ (ilog2 x + 1)); [lra|].
      apply Qpower_le_compat_l; [exact Hk | discriminate]. }
    apply Qle_trans with (2 ^ ilog2 y).
    + rewrite (two_pow_split (ilog2 y) ex) by lia.
      apply round_scaled_le. now rewrite <- two_pow_split by lia.
    + rewrite (two_pow_split (ilog2 y) ey) by lia.
      apply round_scaled_ge. now rewrite <- two_pow_split by lia.
Qed.

Lemma binary64_mono_neg x y : y < 0 -> x <= y -> binary64 x <= binary64 y.
Proof.
  intros Hy Hxy. unfold binary64, ulpExponent. cbv zeta.
  rewrite (Qabs_nonpos_eq x), (Qabs_nonpos_eq y) by lra.
  assert (Hm : (ilog2 (- y) <= ilog2 (- x))%Z) by (apply ilog2_mono; lra).
  set (ex := Z.max (ilog2 (- x) - 52) (-1074)).
  set (ey := Z.max (ilog2 (- y) - 52) (-1074)).
  destruct (Z.eq_dec ex ey) as [He|Hne].
  - rewrite <- He. now apply round_scaled_mono.
  - assert (Hlt : (ey < ex)%Z) by lia.
    assert (Hk : (ilog2 (- y) + 1 <= ilog2 (- x))%Z) by lia.
    destruct (ilog2_spec (- x)) as [Hx1 _]; [lra|].
    destruct (ilog2_spec (- y)) as [_ Hy2]; [lra|].
    assert (Hyb : 2 ^ (ilog2 (- y) + 1) <= 2 ^ ilog2 (- x)).
    { apply Qpower_le_compat_l; [exact Hk | discriminate]. }
    assert (Hsplit : forall e, (e <= ilog2 (- x))%Z ->
              - 2 ^ ilog2 (- x) == inject_Z (- 2 ^ (ilog2 (- x) - e)) * 2 ^ e).
    { intros e He. rewrite inject_Z_opp, (two_pow_split (ilog2 (- x)) e He). ring. }
    apply Qle_trans with (- 2 ^ ilog2 (- x)).
    + rewrite (Hsplit ex) by lia.
      apply round_scaled_le. rewrite <- Hsplit by lia. lra.
    + rewrite (Hsplit ey) by lia.
      apply round_scaled_ge. rewrite <- Hsplit by lia. lra.
Qed.

Lemma binary64_mono x y : x <= y -> binary64 x <= binary64 y.
Proof.
  intros Hxy.
  destruct (Qlt_le_dec 0 x) as [Hx|Hx]; [now apply binary64_mono_pos|].
  destruct (Qlt_le_dec y 0) as [Hy|Hy]; [now apply binary64_mono_neg|].
  apply Qle_trans with 0.
  - now apply round_scaled_nonpos.
  - now apply round_scaled_nonneg.
Qed.

Lemma binary64_comp x y : x == y -> binary64 x == binary64 y.
Proof.
  intros H. apply Qle_antisym; apply binary64_mono; rewrite H; apply Qle_refl.
Qed.

Lemma binary64_0 : binary64 0 == 0.
Proof. reflexivity. Qed.

Lemma Math_round_mono x y : x <= y -> (Math_round x <= Math_round y)%Z.
Proof. intros H. unfold Math_round. apply Qfloor_resp_le. lra. Qed.

Lemma Math_round_comp x y : x == y -> Math_round x = Math_round y.
Proof. intros H. unfold Math_round. apply Qfloor_comp. now rewrite H. Qed.

Lemma sub_mono x y c : x <= y -> sub x c <= sub y c.
Proof. intros H. apply binary64_mono. lra. Qed.

Lemma mul_mono_r x y c : 0 <= c -> x <= y -> mul x c <= mul y c.
Proof. intros Hc H. apply binary64_mono. now apply Qmult_le_compat_r. Qed.

Lemma mul_mono_l x y c : 0 <= c -> x <= y -> mul c x <= mul c y.
Proof.
  intros Hc H. apply binary64_mono. rewrite !(Qmult_comm c).
  now apply Qmult_le_compat_r.
Qed.

Lemma sub_self s : s == 1 -> sub s 1 == 0.
Proof.
  intros H. unfold sub. rewrite (binary64_comp (s - 1) 0) by lra. apply binary64_0.
Qed.

Lemma mul_zero_l x c : x == 0 -> mul x c == 0.
Proof.
  intros H. unfold mul. rewrite (binary64_comp (x * c) 0) by (rewrite H; ring).
  apply binary64_0.
Qed.

End NumberFacts.

(** ** The speed transforms *)

Section SpeedFacts.
Import Number.
Local Open Scope Q_scope.

Lemma sapi_mono s1 s2 :
  s1 <= s2 ->
  (LocalTTSProvider.speedToRate s1 <= LocalTTSProvider.speedToRate s2)%Z.
Proof.
  intros H. unfold LocalTTSProvider.speedToRate.
  assert (H333 : 0 <= binary64 (333 # 100)).
  { rewrite <- binary64_0. apply binary64_mono. discriminate. }
  destruct (Qle_bool s1 1) eqn:H1, (Qle_bool s2 1) eqn:H2.
  - apply Math_round_mono, mul_mono_r; [discriminate|]. now apply sub_mono.
  - apply Qle_bool_iff in H1.
    assert (H2' : ~ s2 <= 1) by (rewrite <- Qle_bool_iff; congruence).
    transitivity (Math_round 0); apply Math_round_mono.
    + rewrite <- (mul_zero_l 0 10) by reflexivity.
      apply mul_mono_r; [discriminate|].
      rewrite <- (sub_self 1) by reflexivity. now apply sub_mono.
    + rewrite <- (mul_zero_l 0 (binary64 (333 # 100))) by reflexivity.
      apply mul_mono_r; [exact H333|].
      rewrite <- (sub_self 1) by reflexivity. apply sub_mono. lra.
  - apply Qle_bool_iff in H2.
    assert (H1' : ~ s1 <= 1) by (rewrite <- Qle_bool_iff; congruence).
    lra.
  - apply Math_round_mono, mul_mono_r; [exact H333|]. now apply sub_mono.
Qed.

(** C9. On the speed scale from 0.25 to 4.0 each speed transform is
    non-decreasing in the normalized speed, and at speed 1 it gives the
    backend's neutral value: SAPI rate 0, 175 words per minute, and the
    prosody rate "+0%". *)
Theorem speed_transforms_monotone s1 s2 :
  1 # 4 <= s1 -> s1 <= s2 -> s2 <= 4 ->
  ((LocalTTSProvider.speedToRate s1 <= LocalTTSProvider.speedToRate s2)%Z /\
   (LocalTTSProvider.wordsPerMinute s1 <= LocalTTSProvider.wordsPerMinute s2)%Z /\
   (AzureProvider.percent s1 <= AzureProvider.percent s2)%Z) /\
  (forall one, one == 1 ->
     LocalTTSProvider.speedToRate one = 0%Z /\
     LocalTTSProvider.wordsPerMinute one = 175%Z /\
     AzureProvider.percent one = 0%Z /\
     AzureProvider.speedToRate one = "+0%"%string).
Proof.
  intros _ H _. split; [split; [|split]|].
  - now apply sapi_mono.
  - apply Math_round_mono, mul_mono_l; [discriminate | exact H].
  - apply Math_round_mono, mul_mono_r; [discriminate|]. now apply sub_mono.
  - intros one H1.
    assert (Hp : AzureProvider.percent one = 0%Z).
    { unfold AzureProvider.percent.
      rewrite (Math_round_comp _ 0); [reflexivity|].
      apply mul_zero_l, sub_self, H1. }
    repeat split.
    + unfold LocalTTSProvider.speedToRate.
      assert (Hle : Qle_bool one 1 = true) by (apply Qle_bool_iff; lra).
      rewrite Hle, (Math_round_comp _ 0); [reflexivity|].
      apply mul_zero_l, sub_self, H1.
    + unfold LocalTTSProvider.wordsPerMinute.
      rewrite (Math_round_comp _ 175); [reflexivity|].
      unfold mul. rewrite (binary64_comp (175 * one) 175) by (rewrite H1; ring).
      vm_compute. reflexivity.
    + exact Hp.
    + unfold AzureProvider.speedToRate. rewrite Hp. reflexivity.
Qed.

(** From a quarter speed to four times the speed. *)
Lemma speed_transforms_monotone_witness :
  (LocalTTSProvider.speedToRate (1 # 4) <= LocalTTSProvider.speedToRate 4)%Z /\
  (LocalTTSProvider.wordsPerMinute (1 # 4) <= LocalTTSProvider.wordsPerMinute 4)%Z /\
  (AzureProvider.percent (1 # 4) <= AzureProvider.percent 4)%Z.
Proof.
  apply (proj1 (speed_transforms_monotone (1 # 4) 4
                  ltac:(vm_compute; discriminate) ltac:(vm_compute; discriminate)
                  ltac:(vm_compute; discriminate))).
Defined.

(** The transforms on a few doubles. The double nearest to 0.85 lies
    below it, and [(0.85 - 1) * 10] comes out just under -1.5. *)
Example speedToRate_samples :
  LocalTTSProvider.speedToRate (binary64 (1 # 4)) = (-7)%Z /\
  LocalTTSProvider.speedToRate (binary64 (85 # 100)) = (-2)%Z /\
  LocalTTSProvider.speedToRate (binary64 (3 # 2)) = 2%Z /\
  LocalTTSProvider.speedToRate (binary64 4) = 10%Z /\
  LocalTTSProvider.wordsPerMinute (binary64 (3 # 2)) = 263%Z /\
  AzureProvider.speedToRate (binary64 (1 # 2)) = "-50%"%string /\
  AzureProvider.speedToRate (binary64 (5 # 4)) = "+25%"%string /\
  AzureProvider.speedToRate (binary64 4) = "+300%"%string.
Proof. vm_compute. repeat split; reflexivity. Qed.

End SpeedFacts.
(** ** Escaping *)

Section EscapingFacts.
Import JsString Escaping.

Lemma append_assoc_ a b c : (a +:+ b) +:+ c = a +:+ (b +:+ c).
Proof.
  induction a as [|x a IH]; [reflexivity|].
  rewrite !append_cons. now rewrite IH.
Qed.

Lemma replaceChar_app c by_ x y :
  replaceChar c by_ (x +:+ y) = replaceChar c by_ x +:+ replaceChar c by_ y.
Proof.
  induction x as [|a x IH]; [reflexivity|].
  rewrite append_cons. cbn [replaceChar].
  destruct (Ascii.eqb a c).
  - now rewrite IH, append_assoc_.
  - now rewrite IH, append_cons.
Qed.

(** The five replacements act on each character by itself. *)
Lemma escapeXml_cons a t : escapeXml (String a t) = xmlEntity a +:+ escapeXml t.
Proof.
  change (String a t) with (String a "" +:+ t).
  unfold escapeXml. rewrite !replaceChar_app. f_equal.
  unfold xmlEntity. cbn [replaceChar].
  destruct (Ascii.eqb_spec a amp); [subst a; reflexivity|].
  cbn [replaceChar].
  destruct (Ascii.eqb_spec a lt); [subst a; reflexivity|].
  cbn [replaceChar].
  destruct (Ascii.eqb_spec a gt); [subst a; reflexivity|].
  cbn [replaceChar].
  destruct (Ascii.eqb_spec a quot); [subst a; reflexivity|].
  cbn [replaceChar].
  destruct (Ascii.eqb_spec a apos); [subst a; reflexivity|].
  reflexivity.
Qed.

Lemma escapePowerShell_cons a t :
  escapePowerShell (String a t) = powerShellChar a +:+ escapePowerShell t.
Proof.
  change (String a t) with (String a "" +:+ t).
  unfold escapePowerShell. rewrite !replaceChar_app. f_equal.
  unfold powerShellChar. cbn [replaceChar].
  destruct (Ascii.eqb_spec a apos); [subst a; reflexivity|].
  cbn [replaceChar].
  destruct (Ascii.eqb_spec a quot); [subst a; reflexivity|].
  reflexivity.
Qed.

Lemma occurs_app c x y : occurs c (x +:+ y) = occurs c x || occurs c y.
Proof.
  induction x as [|a x IH]; [reflexivity|].
  rewrite append_cons. cbn [occurs]. now rewrite IH, orb_assoc.
Qed.

Lemma xmlEntity_clean a c : In c markup -> occurs c (xmlEntity a) = false.
Proof.
  intros Hc. unfold xmlEntity.
  destruct (Ascii.eqb_spec a amp);
    [destruct Hc as [<-|[<-|[<-|[<-|[]]]]]; reflexivity|].
  destruct (Ascii.eqb_spec a lt);
    [destruct Hc as [<-|[<-|[<-|[<-|[]]]]]; reflexivity|].
  destruct (Ascii.eqb_spec a gt);
    [destruct Hc as [<-|[<-|[<-|[<-|[]]]]]; reflexivity|].
  destruct (Ascii.eqb_spec a quot);
    [destruct Hc as [<-|[<-|[<-|[<-|[]]]]]; reflexivity|].
  destruct (Ascii.eqb_spec a apos);
    [destruct Hc as [<-|[<-|[<-|[<-|[]]]]]; reflexivity|].
  cbn [occurs]. rewrite orb_false_r. apply Ascii.eqb_neq.
  destruct Hc as [<-|[<-|[<-|[<-|[]]]]]; assumption.
Qed.

Lemma entitiesOnly_entity a r :
  entitiesOnly (xmlEntity a +:+ r) = entitiesOnly r.
Proof.
  unfold xmlEntity.
  destruct (Ascii.eqb_spec a amp); [rewrite !append_cons, append_nil; reflexivity|].
  destruct (Ascii.eqb_spec a lt); [rewrite !append_cons, append_nil; reflexivity|].
  destruct (Ascii.eqb_spec a gt); [rewrite !append_cons, append_nil; reflexivity|].
  destruct (Ascii.eqb_spec a quot); [rewrite !append_cons, append_nil; reflexivity|].
  destruct (Ascii.eqb_spec a apos); [rewrite !append_cons, append_nil; reflexivity|].
  rewrite append_cons, append_nil. cbn [entitiesOnly].
  apply Ascii.eqb_neq in n. now rewrite n.
Qed.

(** X1. The escaped text holds none of the characters [<], [>], double quote
    and apostrophe, and each [&] in it starts one of the five entities. *)
Theorem escapeXml_no_markup text :
  (forall c, In c markup -> occurs c (escapeXml text) = false) /\
  entitiesOnly (escapeXml text) = true.
Proof.
  split.
  - intros c Hc. induction text as [|a t IH]; [reflexivity|].
    now rewrite escapeXml_cons, occurs_app, xmlEntity_clean, IH.
  - induction text as [|a t IH]; [reflexivity|].
    now rewrite escapeXml_cons, entitiesOnly_entity.
Qed.

Lemma escapeXml_no_markup_witness : occurs lt (escapeXml "a < b") = false.
Proof.
  apply (proj1 (escapeXml_no_markup "a < b") lt). vm_compute. tauto.
Defined.

Lemma xmlEntity_head a r : exists c rest, xmlEntity a +:+ r = String c rest.
Proof.
  unfold xmlEntity.
  repeat match goal with
  | |- context [if ?b then _ else _] => destruct b
  end; rewrite append_cons; eauto.
Qed.

(** X2. Two texts with the same escaped form are the same text. *)
Theorem escapeXml_injective t1 t2 :
  escapeXml t1 = escapeXml t2 -> t1 = t2.
Proof.
  revert t2. induction t1 as [|a t1 IH]; intros [|b t2] H.
  - reflexivity.
  - rewrite escapeXml_cons in H.
    destruct (xmlEntity_head b (escapeXml t2)) as (c & rest & E).
    rewrite E in H. discriminate.
  - rewrite escapeXml_cons in H.
    destruct (xmlEntity_head a (escapeXml t1)) as (c & rest & E).
    rewrite E in H. discriminate.
  - rewrite !escapeXml_cons in H. unfold xmlEntity in H.
    destruct (Ascii.eqb_spec a amp) as [->|Ha1];
    [|destruct (Ascii.eqb_spec a lt) as [->|Ha2];
      [|destruct (Ascii.eqb_spec a gt) as [->|Ha3];
        [|destruct (Ascii.eqb_spec a quot) as [->|Ha4];
          [|destruct (Ascii.eqb_spec a apos) as [->|Ha5]]]]];
    (destruct (Ascii.eqb_spec b amp) as [->|Hb1];
     [|destruct (Ascii.eqb_spec b lt) as [->|Hb2];
       [|destruct (Ascii.eqb_spec b gt) as [->|Hb3];
         [|destruct (Ascii.eqb_spec b quot) as [->|Hb4];
           [|destruct (Ascii.eqb_spec b apos) as [->|Hb5]]]]]);
    rewrite ?append_cons, ?append_nil in H;
    try discriminate H;
    try (injection H as H; f_equal; now apply IH);
    injection H as Hc Ht; subst;
    first [ exfalso;
            match goal with
            | Hne : ?x <> ?y |- _ => apply Hne; reflexivity
            end
          | f_equal; now apply IH ].
Qed.

Lemma escapeXml_injective_witness : "Tom & Jerry <b>" = "Tom & Jerry <b>".
Proof.
  apply (escapeXml_injective "Tom & Jerry <b>" "Tom & Jerry <b>"). reflexivity.
Defined.

Lemma apostrophesPaired_char a r :
  apostrophesPaired false (powerShellChar a +:+ r) = apostrophesPaired false r.
Proof.
  unfold powerShellChar.
  destruct (Ascii.eqb_spec a apos); [rewrite !append_cons, append_nil; reflexivity|].
  destruct (Ascii.eqb_spec a quot); [rewrite !append_cons, append_nil; reflexivity|].
  rewrite append_cons, append_nil. cbn [apostrophesPaired].
  apply Ascii.eqb_neq in n. now rewrite n.
Qed.

Lemma quotesBackticked_text prev t :
  quotesBackticked prev (escapePowerShell t) = true.
Proof.
  revert prev. induction t as [|a t IH]; intros prev; [reflexivity|].
  rewrite escapePowerShell_cons. unfold powerShellChar.
  destruct (Ascii.eqb_spec a apos) as [->|Ha];
    [rewrite !append_cons, append_nil; cbn; apply IH|].
  destruct (Ascii.eqb_spec a quot) as [->|Hq];
    [rewrite !append_cons, append_nil; cbn; apply IH|].
  rewrite append_cons, append_nil. cbn [quotesBackticked].
  apply Ascii.eqb_neq in Hq. rewrite Hq. apply IH.
Qed.

(** X3. In the text put between the apostrophes of the PowerShell script,
    apostrophes only come in pairs and every double quote has a backtick in
    front; a text with neither character is passed as it is. *)
Theorem escapePowerShell_quotes text :
  apostrophesPaired false (escapePowerShell text) = true /\
  quotesBackticked false (escapePowerShell text) = true /\
  (occurs apos text = false -> occurs quot text = false ->
   escapePowerShell text = text).
Proof.
  split; [|split].
  - induction text as [|a t IH]; [reflexivity|].
    now rewrite escapePowerShell_cons, apostrophesPaired_char.
  - apply quotesBackticked_text.
  - induction text as [|a t IH]; [reflexivity|].
    cbn [occurs]. intros Ha Hq.
    apply orb_false_iff in Ha as [Ha Ha'], Hq as [Hq Hq'].
    rewrite escapePowerShell_cons. unfold powerShellChar.
    rewrite Ha, Hq, append_cons, append_nil. now rewrite IH.
Qed.

Lemma escapePowerShell_quotes_witness :
  escapePowerShell "plain text" = "plain text".
Proof.
  apply (proj2 (proj2 (escapePowerShell_quotes "plain text"))); reflexivity.
Defined.

End EscapingFacts.

(** ** Voices *)

Section VoicesFacts.
Import JsString Escaping Voices.





Lemma split_nonempty c s : split c s <> [].
Proof.
  destruct s as [|a s]; [discriminate|]. cbn [split].
  destruct (Ascii.eqb a c); [discriminate|].
  destruct (split c s); discriminate.
Qed.




End VoicesFacts.

(** ** More on the orchestrator *)

Section RunFacts.
Import JsString Auth Orchestrator Run.



Lemma keysOf_app l1 l2 : keysOf (l1 ++ l2) = keysOf l1 ++ keysOf l2.
Proof.
  induction l1 as [|e l1 IH]; [reflexivity|].
  destruct e; cbn [keysOf app]; now rewrite IH.
Qed.

(** The credentials of the calls the loop makes: the one it was started
    with, then the one entered at the re-prompt. *)
Lemma attempts_keys env text apiKey :
  keysOf (effects (attempts env text 2 0 apiKey)) =
  (if cancellation env 0 then [] else [apiKey]) ++
  (if retryFrom env text apiKey then
     match retryPrompt env with
     | Some entered => if cancellation env 1 then [] else [entered]
     | None => []
     end
   else []).
Proof.
  rewrite attempts_first. unfold retryFrom, offersRetryFrom, failureOf. cbv zeta.
  rewrite attemptTask_fst, attemptTask_snd.
  destruct (cancellation env 0); [reflexivity|].
  destruct (backend env 0 apiKey) as [audio|e]; [reflexivity|].
  destruct (String.eqb (errorMessage e) "Cancelled"); [reflexivity|].
  cbn [negb andb].
  destruct (negb (isLocal (provider (config env))) && isAuthenticationError (errorMessage e));
    [|reflexivity].
  cbn [andb].
  destruct (retryAction env); try reflexivity.
  destruct (retryPrompt env) as [entered|]; [|reflexivity].
  destruct (truthy (Some entered)); [|reflexivity].
  cbn [effects]. rewrite keysOf_app.
  rewrite attempts_final. cbv zeta. rewrite attemptTask_fst, attemptTask_snd.
  destruct (cancellation env 1); [reflexivity|].
  destruct (backend env 1 entered) as [audio|e']; [reflexivity|].
  destruct (String.eqb (errorMessage e') "Cancelled"); reflexivity.
Qed.

Lemma synthesizeFromSelection_keys env :
  keysOf (effects (synthesizeFromSelection env)) =
  match validRequest env, initialKey env with
  | Some text, Some apiKey => keysOf (effects (attempts env text 2 0 apiKey))
  | _, _ => []
  end.
Proof.
  pose proof (synthesizeFromSelection_loop env) as H.
  destruct (validRequest env) as [text|], (initialKey env) as [apiKey|];
    try (destruct H as (_ & e & -> & He & _); destruct e; try discriminate; reflexivity).
  destruct H as (_ & [-> | ->]); reflexivity.
Qed.

(** X7. For a provider that takes a credential, no synthesis call is ever made
    with an empty key: the first call carries the stored key, or the key
    entered when none was stored, and a second call carries the key entered
    at the re-prompt. *)
Theorem calls_carry_a_key env :
  isLocal (provider (config env)) = false ->
  Forall (fun key => key <> "") (keysOf (effects (synthesizeFromSelection env))) /\
  (forall text apiKey,
      validRequest env = Some text -> initialKey env = Some apiKey ->
      keysOf (effects (synthesizeFromSelection env)) =
      (if cancellation env 0 then [] else [apiKey]) ++
      (if retryFrom env text apiKey then
         match retryPrompt env with
         | Some entered => if cancellation env 1 then [] else [entered]
         | None => []
         end
       else [])).
Proof.
  intros Hloc.
  assert (Hshape : forall text apiKey,
      validRequest env = Some text -> initialKey env = Some apiKey ->
      keysOf (effects (synthesizeFromSelection env)) =
      (if cancellation env 0 then [] else [apiKey]) ++
      (if retryFrom env text apiKey then
         match retryPrompt env with
         | Some entered => if cancellation env 1 then [] else [entered]
         | None => []
         end
       else [])).
  { intros text apiKey Hv Hk. rewrite synthesizeFromSelection_keys, Hv, Hk.
    apply attempts_keys. }
  split; [|exact Hshape].
  rewrite synthesizeFromSelection_keys.
  destruct (validRequest env) as [text|] eqn:Hv; [|constructor].
  destruct (initialKey env) as [apiKey|] eqn:Hk; [|constructor].
  rewrite attempts_keys.
  assert (Hkey : apiKey <> "").
  { unfold initialKey in Hk. rewrite Hloc in Hk.
    destruct (truthy (Some (getProviderApiKey _ _))) eqn:Ht.
    - injection Hk as <-. unfold truthy in Ht. apply negb_true_iff in Ht.
      now apply String.eqb_neq.
    - destruct (firstPrompt env) as [entered|]; [|discriminate].
      destruct (truthy (Some entered)) eqn:Ht'; [|discriminate].
      injection Hk as <-. unfold truthy in Ht'. apply negb_true_iff in Ht'.
      now apply String.eqb_neq. }
  apply Forall_app. split.
  - destruct (cancellation env 0); repeat constructor. exact Hkey.
  - unfold retryFrom.
    destruct (offersRetryFrom env text apiKey); cbn [andb]; [|constructor].
    destruct (retryAction env); try constructor.
    destruct (retryPrompt env) as [entered|] eqn:Hp; cbn; [|constructor].
    destruct (negb (String.eqb entered "")) eqn:Ht; [|constructor].
    destruct (cancellation env 1); repeat constructor.
    apply negb_true_iff in Ht. now apply String.eqb_neq.
Qed.

Lemma calls_carry_a_key_witness :
  keysOf (effects (synthesizeFromSelection (Scenarios.retrySucceeds []))) =
  ["sk-old"; "sk-new"].
Proof.
  apply (proj2 (calls_carry_a_key (Scenarios.retrySucceeds []) ltac:(reflexivity))
           "Hello world" "sk-old"); vm_compute; reflexivity.
Defined.

(** All the ways through the two iterations of the loop. *)
Ltac walk env text apiKey :=
  rewrite attempts_first; cbv zeta; rewrite ?attemptTask_fst, ?attemptTask_snd;
  destruct (cancellation env 0) eqn:Hc0;
  [|destruct (backend env 0 apiKey) as [audio0|e0] eqn:Hb0;
    [|destruct (String.eqb (errorMessage e0) "Cancelled") eqn:Hm0;
      [|destruct (negb (isLocal (provider (config env))) &&
                  isAuthenticationError (errorMessage e0)) eqn:Hr0;
        [destruct (retryAction env) eqn:Ha;
         [destruct (retryPrompt env) as [entered|] eqn:Hp;
          [destruct (truthy (Some entered)) eqn:Ht;
           [rewrite attempts_final; cbv zeta; rewrite ?attemptTask_fst, ?attemptTask_snd;
            destruct (cancellation env 1) eqn:Hc1;
            [|destruct (backend env 1 entered) as [audio1|e1] eqn:Hb1;
              [|destruct (String.eqb (errorMessage e1) "Cancelled") eqn:Hm1]]
           |]
          |]
         | | ]
        |]]]];
  cbn [result effects app].

(** X8. Every synthesis call of a run is the call for the selected text with
    the provider, region, voice and speed of the settings: the retry sends
    the same request again, with another key. *)
Theorem calls_send_the_request env text :
  validRequest env = Some text ->
  Forall (isTheRequest env text) (effects (synthesizeFromSelection env)).
Proof.
  intros Hv. pose proof (synthesizeFromSelection_loop env) as H. rewrite Hv in H.
  destruct (initialKey env) as [apiKey|].
  - assert (Hloop : Forall (isTheRequest env text) (effects (attempts env text 2 0 apiKey))).
    { walk env text apiKey; repeat constructor. }
    destruct H as (_ & [-> | ->]); [exact Hloop|]. constructor; [exact I | exact Hloop].
  - destruct H as (_ & e & -> & He & _). constructor; [|constructor].
    destruct e; try exact I. discriminate.
Qed.

Lemma calls_send_the_request_witness :
  Forall (isTheRequest (Scenarios.retrySucceeds []) "Hello world")
         (effects (synthesizeFromSelection (Scenarios.retrySucceeds []))).
Proof.
  apply (calls_send_the_request (Scenarios.retrySucceeds []) "Hello world").
  vm_compute. reflexivity.
Defined.



(** X10. With the local provider no key is asked for, before or after a
    failure, whatever the failure says: at most one call is made, with the
    empty key. *)
Theorem local_provider_never_prompts env :
  isLocal (provider (config env)) = true ->
  existsb isPrompt (effects (synthesizeFromSelection env)) = false /\
  calls (synthesizeFromSelection env) <= 1 /\
  Forall (fun key => key = "") (keysOf (effects (synthesizeFromSelection env))).
Proof.
  intros Hloc. unfold calls.
  unfold synthesizeFromSelection, failWith.
  destruct (activeEditor env) as [text|]; [|cbn; auto].
  destruct (String.eqb text ""); [cbn; auto|].
  destruct (_ <? _)%Z; [cbn; auto|].
  rewrite Hloc.
  walk env text ""; rewrite ?Hloc in *; try discriminate;
    cbn; repeat split; auto.
Qed.

Lemma local_provider_never_prompts_witness :
  existsb isPrompt (effects (synthesizeFromSelection Scenarios.localDenied)) = false.
Proof.
  apply (local_provider_never_prompts Scenarios.localDenied ltac:(reflexivity)).
Defined.

(** X11. When no key is stored for the chosen provider the key is asked for
    before anything else, and when the user enters none the run ends there:
    no call, no error message. *)
Theorem missing_key_is_asked_first env text :
  validRequest env = Some text ->
  isLocal (provider (config env)) = false ->
  getProviderApiKey (config env) (provider (config env)) = "" ->
  (truthy (firstPrompt env) = false ->
   synthesizeFromSelection env =
   {| result := None; effects := [PromptForApiKey (provider (config env))] |}) /\
  (forall entered,
      firstPrompt env = Some entered -> entered <> "" ->
      result (synthesizeFromSelection env) = result (attempts env text 2 0 entered) /\
      effects (synthesizeFromSelection env) =
      PromptForApiKey (provider (config env)) :: effects (attempts env text 2 0 entered)).
Proof.
  intros Hv Hloc Hkey. unfold validRequest in Hv. unfold synthesizeFromSelection.
  destruct (activeEditor env) as [t|]; [|discriminate].
  destruct (String.eqb t ""); [discriminate|].
  destruct (_ <? _)%Z; [discriminate|]. injection Hv as ->.
  rewrite Hloc, Hkey. cbn [truthy String.eqb negb]. split.
  - intros Hno. destruct (firstPrompt env) as [entered|]; [|reflexivity].
    cbn [truthy] in Hno |- *. now rewrite Hno.
  - intros entered -> Hne. apply String.eqb_neq in Hne. cbn [truthy]. rewrite Hne.
    split; reflexivity.
Qed.

Lemma missing_key_is_asked_first_witness :
  synthesizeFromSelection Scenarios.noKeyEntered =
  {| result := None; effects := [PromptForApiKey openai] |}.
Proof.
  apply (proj1 (missing_key_is_asked_first Scenarios.noKeyEntered "Hello world"
                  ltac:(vm_compute; reflexivity) ltac:(reflexivity) ltac:(reflexivity))).
  reflexivity.
Defined.

End RunFacts.

(** ** More on the playback session *)

Section SessionFacts.
Import JsString Hybrid Session.

Ltac run :=
  unfold postMessage, mbind, M_bind, mret, M_ret, get, put, throw, tryCatch,
    modifyWorld, modifySelf; cbn [world self].

Lemma onDidDispose_eq s : onDidDispose s = Return tt (afterClose s).
Proof.
  unfold onDidDispose, afterClose, afterFire.
  unfold mbind at 1, M_bind at 1. rewrite cleanup_eq.
  unfold mbind at 1, M_bind at 1. unfold modifySelf at 1.
  now rewrite fireOnDidStop_eq.
Qed.

Lemma dispose_eq s : dispose s = Return tt (afterDispose s).
Proof.
  unfold dispose, afterDispose. unfold mbind at 1, M_bind at 1. rewrite stop_eq.
  cbv zeta. set (s1 := afterCleanup (afterStopMessage s)).
  unfold mbind at 1, M_bind at 1. unfold get.
  destruct (panel (self s1)).
  - unfold mbind, M_bind. rewrite onDidDispose_eq. reflexivity.
  - reflexivity.
Qed.

Lemma pause_eq s :
  pause s = Return tt {| world := match panel (self s) with
                                  | Some _ => post pause_ (world s)
                                  | None => world s
                                  end;
                         self := self s |}.
Proof. unfold pause. run. destruct s as [w x]; cbn. now destruct (panel x). Qed.

Lemma resume_eq s :
  resume s = Return tt {| world := match panel (self s) with
                                   | Some _ => post resume_ (world s)
                                   | None => world s
                                   end;
                          self := self s |}.
Proof. unfold resume. run. destruct s as [w x]; cbn. now destruct (panel x). Qed.

Lemma state_eta (s : State) : {| world := world s; self := self s |} = s.
Proof. now destruct s. Qed.

(** Whether [cleanup] changes a state depends on the temp file reference
    and the disk alone. *)
Lemma afterCleanup_stable s t :
  afterCleanup s = s ->
  tempFile (self t) = tempFile (self s) ->
  files (world t) = files (world s) ->
  afterCleanup t = t.
Proof.
  unfold afterCleanup. intros Hs Ht Hf. rewrite Ht.
  destruct (tempFile (self s)) as [f|] eqn:Hfile; [|reflexivity].
  assert (Hd : onDisk (world t) f = onDisk (world s) f) by (unfold onDisk; now rewrite Hf).
  rewrite Hd.
  destruct (truthy (Some f) && onDisk (world s) f); [|reflexivity].
  rewrite <- Hs in Hfile. discriminate.
Qed.

Lemma afterCleanup_releases s f :
  tempFile (self s) = Some f -> f <> "" -> onDisk (world s) f = true ->
  tempFile (self (afterCleanup s)) = None /\
  (isBusy (world s) f = false -> onDisk (world (afterCleanup s)) f = false).
Proof.
  intros Hf Hne Hd. unfold afterCleanup. rewrite Hf, Hd.
  assert (Ht : truthy (Some f) = true).
  { unfold truthy. apply negb_true_iff. now apply String.eqb_neq. }
  rewrite Ht. cbn [andb world self setTempFile tempFile]. split; [reflexivity|].
  intros ->. unfold onDisk. cbn [files setFiles]. rewrite lookup_delete_eq.
  apply bool_decide_eq_false. intros [? ?]; discriminate.
Qed.

Lemma afterStopMessage_frame s :
  self (afterStopMessage s) = self s /\
  files (world (afterStopMessage s)) = files (world s) /\
  busy (world (afterStopMessage s)) = busy (world s) /\
  fsLog (world (afterStopMessage s)) = fsLog (world s) /\
  invoked (world (afterStopMessage s)) = invoked (world s) /\
  host (world (afterStopMessage s)) = host (world s).
Proof. unfold afterStopMessage. cbn. destruct (panel (self s)); cbn; tauto. Qed.

(** X12. When the user closes the panel, the temp file is deleted if it can
    be, the stop callback runs once if there is one, and the player is left
    without a panel: [stop], [pause] and [resume] then change nothing and
    post nothing. *)
Theorem panel_closed s :
  let s' := afterClose s in
  onDidDispose s = Return tt s' /\
  panel (self s') = None /\
  invoked (world s') =
    invoked (world s) +
    match onDidStopCallback (self s) with Some _ => 1 | None => 0 end /\
  (forall f, tempFile (self s) = Some f -> f <> "" -> onDisk (world s) f = true ->
             tempFile (self s') = None /\
             (isBusy (world s) f = false -> onDisk (world s') f = false)) /\
  stop s' = Return tt s' /\ pause s' = Return tt s' /\ resume s' = Return tt s'.
Proof.
  cbv zeta.
  destruct (afterCleanup_frame s) as (_ & _ & _ & _ & Hi & _ & _ & Hcb).
  assert (Hpanel : panel (self (afterClose s)) = None) by reflexivity.
  assert (Hfiles : files (world (afterClose s)) = files (world (afterCleanup s))).
  { unfold afterClose, afterFire. cbn [world self setPanel onDidStopCallback].
    now destruct (onDidStopCallback (self (afterCleanup s))). }
  assert (Htemp : tempFile (self (afterClose s)) = tempFile (self (afterCleanup s)))
    by reflexivity.
  split; [apply onDidDispose_eq|]. split; [exact Hpanel|]. split; [|split; [|split; [|split]]].
  - unfold afterClose, afterFire. cbn [world self setPanel onDidStopCallback].
    rewrite Hcb. destruct (onDidStopCallback (self s)); cbn [invoked call]; lia.
  - intros f Hf Hne Hd. destruct (afterCleanup_releases s f Hf Hne Hd) as [H1 H2].
    split; [now rewrite Htemp|]. intros Hb. unfold onDisk. rewrite Hfiles. now apply H2.
  - rewrite stop_eq. f_equal. unfold afterStopMessage. rewrite Hpanel, state_eta.
    apply (afterCleanup_stable (afterCleanup s)); auto using afterCleanup_idem.
  - rewrite pause_eq, Hpanel. now rewrite state_eta.
  - rewrite resume_eq, Hpanel. now rewrite state_eta.
Qed.

Lemma panel_closed_witness :
  tempFile (self (afterClose playing)) = None /\
  (isBusy (world playing) (tempPath "/tmp" 1000) = false ->
   onDisk (world (afterClose playing)) (tempPath "/tmp" 1000) = false).
Proof.
  apply (proj1 (proj2 (proj2 (proj2 (panel_closed playing)))) (tempPath "/tmp" 1000));
    vm_compute; [reflexivity | discriminate | reflexivity].
Defined.

(** X13. [dispose] leaves no panel; it deletes the temp file if it can be
    deleted, and the stop callback runs once exactly when there were a panel
    and a callback. A second [dispose] changes nothing. *)
Theorem dispose_releases s :
  let s' := afterDispose s in
  dispose s = Return tt s' /\
  panel (self s') = None /\
  invoked (world s') =
    invoked (world s) +
    match panel (self s), onDidStopCallback (self s) with
    | Some _, Some _ => 1
    | _, _ => 0
    end /\
  (forall f, tempFile (self s) = Some f -> f <> "" -> onDisk (world s) f = true ->
             tempFile (self s') = None /\
             (isBusy (world s) f = false -> onDisk (world s') f = false)) /\
  dispose s' = Return tt s'.
Proof.
  cbv zeta. unfold afterDispose. cbv zeta.
  set (s1 := afterCleanup (afterStopMessage s)).
  destruct (afterCleanup_frame (afterStopMessage s)) as (_ & _ & _ & _ & Hi & _ & Hp & Hcb).
  fold s1 in Hi, Hp, Hcb.
  destruct (afterStopMessage_frame s) as (Hself & Hfiles & Hbusy & _ & Hinv & _).
  rewrite Hself in Hp, Hcb. rewrite Hinv in Hi.
  assert (Hfix : afterCleanup s1 = s1) by apply afterCleanup_idem.
  set (closed := match panel (self s1) with Some _ => afterClose s1 | None => s1 end).
  assert (Hct : tempFile (self closed) = tempFile (self s1)).
  { unfold closed. destruct (panel (self s1)); [|reflexivity].
    unfold afterClose. now rewrite Hfix. }
  assert (Hcf : files (world closed) = files (world s1)).
  { unfold closed. destruct (panel (self s1)); [|reflexivity].
    unfold afterClose, afterFire. rewrite Hfix.
    cbn [world self setPanel onDidStopCallback].
    now destruct (onDidStopCallback (self s1)). }
  set (s' := {| world := world closed; self := setPanel None (self closed) |}).
  assert (Hfix' : afterCleanup s' = s').
  { apply (afterCleanup_stable s1); [exact Hfix | exact Hct | exact Hcf]. }
  split; [apply dispose_eq|]. split; [reflexivity|]. split; [|split].
  - unfold s', closed. rewrite Hp.
    destruct (panel (self s)); cbn [world]; [|rewrite Hi; lia].
    unfold afterClose, afterFire. rewrite Hfix.
    cbn [world self setPanel onDidStopCallback]. rewrite Hcb.
    destruct (onDidStopCallback (self s)); cbn [invoked call]; lia.
  - intros f Hf Hne Hd.
    assert (Hf1 : tempFile (self (afterStopMessage s)) = Some f) by now rewrite Hself.
    assert (Hd1 : onDisk (world (afterStopMessage s)) f = true)
      by (unfold onDisk; now rewrite Hfiles).
    destruct (afterCleanup_releases _ f Hf1 Hne Hd1) as [H1 H2]. fold s1 in H1, H2.
    split; [unfold s'; cbn [self setPanel tempFile]; now rewrite Hct|].
    intros Hb. unfold onDisk, s'. cbn [world]. rewrite Hcf. apply H2.
    unfold isBusy. now rewrite Hbusy.
  - rewrite dispose_eq. f_equal. unfold afterDispose. cbv zeta.
    assert (Hstop : afterStopMessage s' = s').
    { unfold afterStopMessage. cbn [self world setPanel panel]. reflexivity. }
    rewrite Hstop, Hfix'. cbn [self setPanel panel]. reflexivity.
Qed.

Lemma dispose_releases_witness :
  tempFile (self (afterDispose playing)) = None /\
  (isBusy (world playing) (tempPath "/tmp" 1000) = false ->
   onDisk (world (afterDispose playing)) (tempPath "/tmp" 1000) = false).
Proof.
  apply (proj1 (proj2 (proj2 (proj2 (dispose_releases playing)))) (tempPath "/tmp" 1000));
    vm_compute; [reflexivity | discriminate | reflexivity].
Defined.

Lemma download_without_audio s :
  (forall f, tempFile (self s) = Some f ->
             truthy (Some f) && onDisk (world s) f = false) ->
  downloadCurrentAudio s =
  Return tt {| world := noticed noAudio (world s); self := self s |}.
Proof.
  intros H. unfold downloadCurrentAudio. run.
  destruct (tempFile (self s)) as [f|]; [|reflexivity].
  specialize (H f eq_refl). unfold onDisk in H.
  destruct (files (world s) !! f) as [audio|]; [|reflexivity].
  rewrite bool_decide_eq_true_2 in H by eauto. rewrite andb_true_r in H.
  now rewrite H.
Qed.



(** X15. After [stop] there is nothing to download, whether the temp file could
    be deleted or not: the download only shows that no audio is available
    and writes nothing. *)
Theorem download_after_stop s :
  exists s1 s2,
    stop s = Return tt s1 /\
    downloadCurrentAudio s1 = Return tt s2 /\
    files (world s2) = files (world s1) /\
    fsLog (world s2) = fsLog (world s1) /\
    shown (host (world s2)) = shown (host (world s1)) ++ [noAudio].
Proof.
  exists (afterCleanup (afterStopMessage s)). eexists.
  split; [apply stop_eq|]. split.
  - apply download_without_audio. intros f Hf.
    set (s0 := afterStopMessage s) in *. unfold afterCleanup in Hf |- *.
    destruct (tempFile (self s0)) as [g|] eqn:Hg; [|rewrite Hg in Hf; discriminate].
    destruct (truthy (Some g) && onDisk (world s0) g) eqn:Hc; [discriminate|].
    rewrite Hg in Hf. injection Hf as <-. exact Hc.
  - cbn. auto.
Qed.






Lemma deletesOnlyWritten_snoc written log op :
  deletesOnlyWritten written log = true ->
  match op with
  | Write _ => True
  | Unlink p => In p written \/ In (Write p) log
  end ->
  deletesOnlyWritten written (log ++ [op]) = true.
Proof.
  revert written. induction log as [|first rest IH]; intros written Hlog Hop.
  - destruct op as [p|p]; cbn; [|reflexivity].
    rewrite andb_true_r. apply existsb_exists. exists p. split.
    + destruct Hop as [H|[]]. exact H.
    + apply String.eqb_refl.
  - destruct first as [q|q]; cbn [app deletesOnlyWritten] in *.
    + apply andb_true_iff in Hlog as [Hq Hrest]. rewrite Hq. cbn [andb].
      apply IH; [exact Hrest|]. destruct op as [p|p]; [|exact I].
      destruct Hop as [H|[H|H]]; [now left | discriminate | now right].
    + apply IH; [exact Hlog|]. destruct op as [p|p]; [|exact I].
      destruct Hop as [H|[H|H]].
      * left. now right.
      * injection H as ->. left. now left.
      * now right.
Qed.

Lemma quiet_refl w : Quiet w w.
Proof. split; auto. Qed.

Lemma quiet_trans w1 w2 w3 : Quiet w1 w2 -> Quiet w2 w3 -> Quiet w1 w3.
Proof. intros [H1 I1] [H2 I2]. split; [auto | congruence]. Qed.

Lemma quiet_frame w w' :
  files w' = files w -> fsLog w' = fsLog w -> invoked w' = invoked w -> Quiet w w'.
Proof.
  intros Hf Hl Hi. split; [|exact Hi]. intros [H1 H2]. split.
  - now rewrite Hl.
  - intros p Hp. rewrite Hl. apply H2. unfold onDisk in *. now rewrite <- Hf.
Qed.

Lemma quiet_write w p data :
  Quiet w (setFiles (<[p := data]> (files w)) (Write p) w).
Proof.
  split; [|reflexivity]. intros [H1 H2]. split; cbn [fsLog setFiles].
  - apply deletesOnlyWritten_snoc; [exact H1 | exact I].
  - intros q Hq. apply in_or_app. unfold onDisk in Hq. cbn [files setFiles] in Hq.
    destruct (decide (p = q)) as [->|Hne]; [right; now left|].
    rewrite lookup_insert_ne in Hq by exact Hne. left. now apply H2.
Qed.

Lemma quiet_unlink w f :
  onDisk w f = true -> Quiet w (setFiles (delete f (files w)) (Unlink f) w).
Proof.
  intros Hd. split; [|reflexivity]. intros [H1 H2]. split; cbn [fsLog setFiles].
  - apply deletesOnlyWritten_snoc; [exact H1|]. right. now apply H2.
  - intros q Hq. apply in_or_app. left. apply H2.
    unfold onDisk in *. cbn [files setFiles] in Hq.
    destruct (decide (f = q)) as [->|Hne].
    + rewrite lookup_delete_eq in Hq. apply bool_decide_eq_true in Hq as [? ?]. discriminate.
    + now rewrite lookup_delete_ne in Hq by exact Hne.
Qed.

Lemma quiet_cleanup s : Quiet (world s) (world (afterCleanup s)).
Proof.
  unfold afterCleanup. destruct (tempFile (self s)) as [f|]; [|apply quiet_refl].
  destruct (truthy (Some f)); cbn [andb]; [|apply quiet_refl].
  destruct (onDisk (world s) f) eqn:Hd; [|apply quiet_refl].
  cbn [world]. destruct (isBusy (world s) f); [apply quiet_refl|].
  now apply quiet_unlink.
Qed.

Lemma quiet_stopMessage s : Quiet (world s) (world (afterStopMessage s)).
Proof.
  destruct (afterStopMessage_frame s) as (_ & Hf & _ & Hl & Hi & _).
  now apply quiet_frame.
Qed.

Lemma quiet_play audioData onStop now s :
  Quiet (world s) (world (stateOf (play audioData onStop now s))).
Proof.
  rewrite play_eq. cbv zeta. unfold beforeWrite.
  set (s0 := {| world := world s; self := setCallback onStop (self s) |}).
  pose proof (quiet_cleanup s0) as Hc. change (world s0) with (world s) in Hc.
  destruct (faults _ !! _) as [[message leftover]|]; cbn [stateOf world].
  - destruct leftover; [|exact Hc]. eapply quiet_trans; [exact Hc | apply quiet_write].
  - eapply quiet_trans; [exact Hc | apply quiet_write].
Qed.

Lemma quiet_stop s : Quiet (world s) (world (stateOf (stop s))).
Proof.
  rewrite stop_eq. cbn [stateOf].
  eapply quiet_trans; [apply quiet_stopMessage | apply quiet_cleanup].
Qed.

Lemma quiet_download s : Quiet (world s) (world (stateOf (downloadCurrentAudio s))).
Proof.
  unfold downloadCurrentAudio, showErrorMessage, showInformationMessage, notify,
    writeFileSync. run.
  destruct (tempFile (self s)) as [f|]; [|now apply quiet_frame].
  destruct (files (world s) !! f) as [audio|]; [|now apply quiet_frame].
  destruct (truthy (Some f)); [|now apply quiet_frame].
  destruct (saveDialog (world s)) as [target|]; [|apply quiet_refl].
  destruct (faults (world s) !! target) as [[message leftover]|]; cbn [world self].
  - destruct leftover as [part|]; cbn [stateOf world].
    + eapply quiet_trans; [apply quiet_write | now apply quiet_frame].
    + now apply quiet_frame.
  - cbn [stateOf world]. eapply quiet_trans; [apply quiet_write | now apply quiet_frame].
Qed.

(** Firing the callback keeps the log and counts at most one run. *)
Lemma fire_counts s :
  (wellLogged (world s) -> wellLogged (world (afterFire s))) /\
  invoked (world s) <= invoked (world (afterFire s)) <= invoked (world s) + 1.
Proof.
  unfold afterFire. cbn [world].
  destruct (onDidStopCallback (self s)); cbn [invoked call]; split; auto; try lia.
Qed.

Lemma close_counts s :
  (wellLogged (world s) -> wellLogged (world (afterClose s))) /\
  invoked (world s) <= invoked (world (afterClose s)) <= invoked (world s) + 1.
Proof.
  unfold afterClose.
  set (t := {| world := world (afterCleanup s); self := setPanel None (self (afterCleanup s)) |}).
  destruct (fire_counts t) as [H1 H2]. destruct (quiet_cleanup s) as [H3 H4].
  change (world t) with (world (afterCleanup s)) in H1, H2.
  split; [auto|]. rewrite H4 in H2. exact H2.
Qed.

(** One operation keeps the log well formed, never lowers the count of
    callback runs, and raises it by at most one, and only when it is an
    operation that ends the playback. *)
Lemma step_counts op s :
  (wellLogged (world s) -> wellLogged (world (stateOf (step op s)))) /\
  invoked (world s) <= invoked (world (stateOf (step op s))) /\
  invoked (world (stateOf (step op s))) <=
    invoked (world s) + (if endsPlayback op then 1 else 0).
Proof.
  assert (Hq : forall w', Quiet (world s) w' ->
            (wellLogged (world s) -> wellLogged w') /\
            invoked (world s) <= invoked w' /\ invoked w' <= invoked (world s) + 0).
  { intros w' [H1 H2]. split; [exact H1|]. lia. }
  assert (Hq1 : forall w', Quiet (world s) w' ->
            (wellLogged (world s) -> wellLogged w') /\
            invoked (world s) <= invoked w' /\ invoked w' <= invoked (world s) + 1).
  { intros w' [H1 H2]. split; [exact H1|]. lia. }
  destruct op as [audioData onStop now| | | | |message|]; cbn [step endsPlayback].
  - apply Hq, quiet_play.
  - apply Hq, quiet_stop.
  - rewrite pause_eq. cbn [stateOf world]. apply Hq.
    destruct (panel (self s)); [now apply quiet_frame | apply quiet_refl].
  - rewrite resume_eq. cbn [stateOf world]. apply Hq.
    destruct (panel (self s)); [now apply quiet_frame | apply quiet_refl].
  - rewrite dispose_eq. cbn [stateOf]. unfold afterDispose. cbv zeta. cbn [world].
    set (s1 := afterCleanup (afterStopMessage s)).
    assert (Hs1 : Quiet (world s) (world s1)).
    { eapply quiet_trans; [apply quiet_stopMessage | apply quiet_cleanup]. }
    destruct Hs1 as [H1 H2]. clearbody s1.
    destruct (panel (self s1)).
    + destruct (close_counts s1) as [H3 H4]. rewrite H2 in H4. split; [auto | exact H4].
    + split; [exact H1 | rewrite H2; lia].
  - destruct message; cbn [onDidReceiveMessage];
      try (apply Hq, quiet_refl).
    + (* ready *)
      run. apply Hq. destruct (panel (self s)); cbn [stateOf world];
        [now apply quiet_frame | apply quiet_refl].
    + rewrite fireOnDidStop_eq. cbn [stateOf].
      destruct (fire_counts s) as [H1 H2]. split; [exact H1 | exact H2].
    + rewrite fireOnDidStop_eq. cbn [stateOf].
      destruct (fire_counts s) as [H1 H2]. split; [exact H1 | exact H2].
    + apply Hq, quiet_download.
  - unfold mbind, M_bind, get. destruct (panel (self s)).
    + rewrite onDidDispose_eq. cbn [stateOf].
      destruct (close_counts s) as [H1 H2]. split; [exact H1 | exact H2].
    + apply Hq1, quiet_refl.
Qed.



(** X18. Over any sequence of operations the stop callback runs at most once
    per operation that ends the playback (an [ended] or [stopped] message,
    the panel being closed, [dispose]). [play], [stop], [pause], [resume] and
    the other messages never run it. *)
Theorem callback_runs_only_at_end ops s :
  invoked (world s) <= invoked (world (runOps ops s)) /\
  invoked (world (runOps ops s)) <=
    invoked (world s) + length (List.filter endsPlayback ops).
Proof.
  revert s. induction ops as [|op rest IH]; intros s; cbn [runOps List.filter].
  - cbn. lia.
  - destruct (step_counts op s) as (_ & H1 & H2).
    destruct (IH (stateOf (step op s))) as [H3 H4].
    destruct (endsPlayback op); cbn [length] in *; lia.
Qed.

End SessionFacts.

(** ** Keys and provider in the settings *)

Section SettingsFacts.
Import JsString Orchestrator Settings.

Lemma setApiKey_lookup p key c q :
  getProviderApiKey (setApiKey p key c) q =
  if sameProvider q p && negb (isLocal p) then key else getProviderApiKey c q.
Proof. destruct p, q; reflexivity. Qed.

Lemma setApiKey_other p key c : otherSettings (setApiKey p key c) = otherSettings c.
Proof. destruct p; reflexivity. Qed.

Lemma sameProvider_refl p : sameProvider p p = true.
Proof. now destruct p. Qed.

Lemma promptForApiKey_cases p a d :
  let r := promptForApiKey p a d in
  (isLocal p = true -> r = (None, d)) /\
  (isLocal p = false ->
   fst r = typed a /\
   seen (snd r) = seen d ++ [InputBox p] /\
   suppress (snd r) = suppress d /\
   otherSettings (stored (snd r)) = otherSettings (stored d) /\
   forall q,
     getProviderApiKey (stored (snd r)) q =
     match typed a with
     | Some key =>
       if sameProvider q p && truthy (Some key) then key
       else getProviderApiKey (stored d) q
     | None => getProviderApiKey (stored d) q
     end).
Proof.
  cbv zeta. unfold promptForApiKey. split; intros Hloc; rewrite Hloc; [reflexivity|].
  destruct (typed a) as [key|]; [|cbn; auto].
  destruct (truthy (Some key)) eqn:Ht; cbn [fst snd stored seen suppress show].
  - repeat split; [apply setApiKey_other|].
    intros q. rewrite setApiKey_lookup, Hloc. cbn [negb]. now rewrite andb_true_r.
  - repeat split. intros q. now rewrite andb_false_r.
Qed.

(** X19. A key that is typed into the input box and is not empty is returned and
    stored under the setting of the provider it was asked for, and under no
    other: the keys of the other providers and the other settings stay as
    they are. For the local provider, a closed box or an empty input the
    settings are not touched at all. *)
Theorem promptForApiKey_stores p a d :
  let r := promptForApiKey p a d in
  (forall key,
      isLocal p = false -> typed a = Some key -> key <> "" ->
      fst r = Some key /\
      getProviderApiKey (stored (snd r)) p = key /\
      (forall q, sameProvider q p = false ->
                 getProviderApiKey (stored (snd r)) q = getProviderApiKey (stored d) q) /\
      otherSettings (stored (snd r)) = otherSettings (stored d)) /\
  (isLocal p = true \/ typed a = None \/ typed a = Some "" ->
   stored (snd r) = stored d).
Proof.
  cbv zeta. split.
  - intros key Hloc Hkey Hne.
    destruct (proj2 (promptForApiKey_cases p a d) Hloc) as (H1 & _ & _ & H4 & H5).
    assert (Ht : truthy (Some key) = true).
    { unfold truthy. apply negb_true_iff. now apply String.eqb_neq. }
    rewrite Hkey in H1, H5. repeat split.
    + exact H1.
    + now rewrite H5, sameProvider_refl, Ht.
    + intros q Hq. now rewrite H5, Hq.
    + exact H4.
  - unfold promptForApiKey. intros [Hloc | [Hnone | Hempty]].
    + now rewrite Hloc.
    + destruct (isLocal p); [reflexivity|]. now rewrite Hnone.
    + destruct (isLocal p); [reflexivity|]. now rewrite Hempty.
Qed.

Lemma promptForApiKey_stores_witness :
  getProviderApiKey
    (stored (snd (promptForApiKey azure
       {| typed := Some "az-new"; pressed := None; picked := None |}
       {| stored := Scenarios.settings azure; suppress := false; seen := [] |})))
    azure = "az-new".
Proof.
  apply (proj1 (promptForApiKey_stores azure
           {| typed := Some "az-new"; pressed := None; picked := None |}
           {| stored := Scenarios.settings azure; suppress := false; seen := [] |})
         "az-new"); [reflexivity | reflexivity | discriminate].
Defined.

Lemma promptForApiKey_keeps p a d q :
  getProviderApiKey (stored d) q <> "" ->
  getProviderApiKey (stored (snd (promptForApiKey p a d))) q <> "".
Proof.
  intros Hq. destruct (isLocal p) eqn:Hloc.
  - now rewrite (proj1 (promptForApiKey_cases p a d) Hloc).
  - destruct (proj2 (promptForApiKey_cases p a d) Hloc) as (_ & _ & _ & _ & Hk).
    rewrite Hk. destruct (typed a) as [key|]; [|exact Hq].
    destruct (sameProvider q p); cbn [andb]; [|exact Hq].
    destruct (truthy (Some key)) eqn:Ht; [|exact Hq].
    unfold truthy in Ht. apply negb_true_iff in Ht. now apply String.eqb_neq.
Qed.

Lemma promptForApiKey_boxes p a d :
  seen (snd (promptForApiKey p a d)) =
  seen d ++ (if isLocal p then [] else [InputBox p]).
Proof.
  destruct (isLocal p) eqn:Hloc.
  - rewrite (proj1 (promptForApiKey_cases p a d) Hloc). cbn. now rewrite app_nil_r.
  - now destruct (proj2 (promptForApiKey_cases p a d) Hloc) as (_ & H & _).
Qed.

Lemma promptForApiKey_suppress p a d :
  suppress (snd (promptForApiKey p a d)) = suppress d.
Proof.
  destruct (isLocal p) eqn:Hloc.
  - now rewrite (proj1 (promptForApiKey_cases p a d) Hloc).
  - now destruct (proj2 (promptForApiKey_cases p a d) Hloc) as (_ & _ & H & _).
Qed.

Lemma promptForApiKey_provider p a d :
  provider (stored (snd (promptForApiKey p a d))) = provider (stored d).
Proof.
  destruct (isLocal p) eqn:Hloc.
  - now rewrite (proj1 (promptForApiKey_cases p a d) Hloc).
  - destruct (proj2 (promptForApiKey_cases p a d) Hloc) as (_ & _ & _ & H & _).
    unfold otherSettings in H. congruence.
Qed.

(** What [handleProviderKeyPrompt] shows: nothing for the local provider,
    the input box alone when no key is stored, and otherwise the question,
    followed by the input box only if "Update Key" is pressed. *)
Lemma handleProviderKeyPrompt_seen p a d :
  seen (handleProviderKeyPrompt p a d) =
  seen d ++
  (if isLocal p then []
   else if truthy (Some (getProviderApiKey (stored d) p)) then
     AskUpdate p ::
     match pressed a with
     | Some UpdateKeyButton => [InputBox p]
     | _ => []
     end
   else [InputBox p]).
Proof.
  unfold handleProviderKeyPrompt. destruct (isLocal p) eqn:Hloc; [now rewrite app_nil_r|].
  destruct (truthy (Some (getProviderApiKey (stored d) p))); cbn [negb].
  - destruct (pressed a) as [[]|]; try reflexivity.
    rewrite promptForApiKey_boxes, Hloc. cbn [seen show]. now rewrite <- app_assoc.
  - now rewrite promptForApiKey_boxes, Hloc.
Qed.

(** X20. The key prompts never lose a key: a setting that holds a key before
    [handleProviderKeyPrompt] holds one after it, whatever the user answers.
    With a key stored and any answer but "Update Key", and for the local
    provider, the settings are not touched and no input box is shown. *)
Theorem handleProviderKeyPrompt_keeps_keys p a d :
  (forall q, getProviderApiKey (stored d) q <> "" ->
             getProviderApiKey (stored (handleProviderKeyPrompt p a d)) q <> "") /\
  (isLocal p = true -> handleProviderKeyPrompt p a d = d) /\
  (getProviderApiKey (stored d) p <> "" -> pressed a <> Some UpdateKeyButton ->
   stored (handleProviderKeyPrompt p a d) = stored d /\
   existsb isInputBox (seen (handleProviderKeyPrompt p a d)) =
   existsb isInputBox (seen d)).
Proof.
  split; [|split].
  - intros q Hq. unfold handleProviderKeyPrompt.
    destruct (isLocal p); [exact Hq|].
    destruct (negb _); [now apply promptForApiKey_keeps|].
    destruct (pressed a) as [[]|]; try exact Hq.
    now apply promptForApiKey_keeps.
  - intros Hloc. unfold handleProviderKeyPrompt. now rewrite Hloc.
  - intros Hkey Hpress. rewrite handleProviderKeyPrompt_seen.
    unfold handleProviderKeyPrompt.
    destruct (isLocal p); [now rewrite app_nil_r|].
    assert (Ht : truthy (Some (getProviderApiKey (stored d) p)) = true).
    { unfold truthy. apply negb_true_iff. now apply String.eqb_neq. }
    rewrite Ht. cbn [negb].
    destruct (pressed a) as [[]|]; try (now destruct Hpress);
      (split; [reflexivity|]); rewrite existsb_app; cbn; now rewrite orb_false_r.
Qed.

Lemma handleProviderKeyPrompt_keeps_keys_witness :
  getProviderApiKey
    (stored (handleProviderKeyPrompt openai
               {| typed := Some ""; pressed := Some UpdateKeyButton; picked := None |}
               {| stored := Scenarios.settings openai; suppress := false; seen := [] |}))
    openai <> "".
Proof.
  apply (proj1 (handleProviderKeyPrompt_keeps_keys openai
           {| typed := Some ""; pressed := Some UpdateKeyButton; picked := None |}
           {| stored := Scenarios.settings openai; suppress := false; seen := [] |})).
  vm_compute. discriminate.
Defined.

Lemma handleProviderKeyPrompt_provider p a d :
  provider (stored (handleProviderKeyPrompt p a d)) = provider (stored d) /\
  suppress (handleProviderKeyPrompt p a d) = suppress d.
Proof.
  unfold handleProviderKeyPrompt. destruct (isLocal p); [auto|].
  destruct (negb _).
  - now rewrite promptForApiKey_provider, promptForApiKey_suppress.
  - destruct (pressed a) as [[]|]; auto.
    now rewrite promptForApiKey_provider, promptForApiKey_suppress.
Qed.

(** X21. Picking a provider in the command sets the provider and asks about its
    key once: the change listener stays silent while the command writes the
    setting, so after the quick pick and the confirmation the user sees
    what [handleProviderKeyPrompt] shows, one time. Closing the quick pick
    changes nothing. *)
Theorem selectProviderCommand_asks_once a d :
  match picked a with
  | None => selectProviderCommand a d = show QuickPick d
  | Some p =>
    provider (stored (selectProviderCommand a d)) = p /\
    suppress (selectProviderCommand a d) = false /\
    seen (selectProviderCommand a d) =
    seen d ++
    [QuickPick; Info ("Eloquent: Provider set to " +:+ providerLabel p)] ++
    (if isLocal p then []
     else if truthy (Some (getProviderApiKey (stored d) p)) then
       AskUpdate p ::
       match pressed a with
       | Some UpdateKeyButton => [InputBox p]
       | _ => []
       end
     else [InputBox p]) /\
    length (List.filter isInputBox (seen (selectProviderCommand a d))) <=
      length (List.filter isInputBox (seen d)) + 1
  end.
Proof.
  unfold selectProviderCommand. destruct (picked a) as [p|]; [|reflexivity].
  unfold updateProvider, configChangeListener.
  cbn [suppress setSuppress show negb orb stored seen].
  set (d5 := show _ _).
  destruct (handleProviderKeyPrompt_provider p a d5) as [Hp Hs].
  assert (Hseen : seen (handleProviderKeyPrompt p a d5) =
    seen d ++
    [QuickPick; Info ("Eloquent: Provider set to " +:+ providerLabel p)] ++
    (if isLocal p then []
     else if truthy (Some (getProviderApiKey (stored d) p)) then
       AskUpdate p ::
       match pressed a with
       | Some UpdateKeyButton => [InputBox p]
       | _ => []
       end
     else [InputBox p])).
  { rewrite handleProviderKeyPrompt_seen. unfold d5. cbn [seen show stored setSuppress].
    rewrite <- !app_assoc. cbn [app].
    replace (getProviderApiKey (setProvider p (stored d)) p)
      with (getProviderApiKey (stored d) p) by (destruct p; reflexivity).
    reflexivity. }
  split; [rewrite Hp; reflexivity|]. split; [rewrite Hs; reflexivity|].
  split; [exact Hseen|]. rewrite Hseen, !List.filter_app, !length_app.
  cbn [List.filter isInputBox length].
  destruct (isLocal p); [cbn; lia|].
  destruct (truthy _); [destruct (pressed a) as [[]|]|]; cbn; lia.
Qed.

End SettingsFacts.

(** ** More on the speed transforms *)

Section SpeedRangeFacts.
Import Number.
Local Open Scope Q_scope.

(** X22. On the speed scale from 0.25 to 4.0 the SAPI rate stays between -7 and
    10, inside the range from -10 to 10 that SAPI takes; the words per minute
    stay between 44 and 700 and the Azure percentage between -75 and 300. *)
Theorem speed_ranges s :
  1 # 4 <= s -> s <= 4 ->
  (-7 <= LocalTTSProvider.speedToRate s <= 10)%Z /\
  (44 <= LocalTTSProvider.wordsPerMinute s <= 700)%Z /\
  (-75 <= AzureProvider.percent s <= 300)%Z.
Proof.
  intros Hlo Hhi.
  pose proof (sapi_mono _ _ Hlo) as S1. pose proof (sapi_mono _ _ Hhi) as S2.
  assert (W : forall a b, a <= b ->
            (LocalTTSProvider.wordsPerMinute a <= LocalTTSProvider.wordsPerMinute b)%Z).
  { intros a b H. apply Math_round_mono, mul_mono_l; [discriminate | exact H]. }
  assert (P : forall a b, a <= b ->
            (AzureProvider.percent a <= AzureProvider.percent b)%Z).
  { intros a b H. apply Math_round_mono, mul_mono_r; [discriminate|]. now apply sub_mono. }
  pose proof (W _ _ Hlo) as W1. pose proof (W _ _ Hhi) as W2.
  pose proof (P _ _ Hlo) as P1. pose proof (P _ _ Hhi) as P2.
  change (LocalTTSProvider.speedToRate (1 # 4)) with (-7)%Z in S1.
  replace (LocalTTSProvider.speedToRate 4) with 10%Z in S2 by (vm_compute; reflexivity).
  replace (LocalTTSProvider.wordsPerMinute (1 # 4)) with 44%Z in W1 by (vm_compute; reflexivity).
  replace (LocalTTSProvider.wordsPerMinute 4) with 700%Z in W2 by (vm_compute; reflexivity).
  replace (AzureProvider.percent (1 # 4)) with (-75)%Z in P1 by (vm_compute; reflexivity).
  replace (AzureProvider.percent 4) with 300%Z in P2 by (vm_compute; reflexivity).
  lia.
Qed.

Lemma speed_ranges_witness :
  (-7 <= LocalTTSProvider.speedToRate (3 # 2) <= 10)%Z /\
  (44 <= LocalTTSProvider.wordsPerMinute (3 # 2) <= 700)%Z /\
  (-75 <= AzureProvider.percent (3 # 2) <= 300)%Z.
Proof.
  apply (speed_ranges (3 # 2)); vm_compute; discriminate.
Defined.

End SpeedRangeFacts.

Section AzureRateFacts.
Import JsString.

Lemma append_percent_inj x y : x +:+ "%" = y +:+ "%" -> x = y.
Proof.
  revert y. induction x as [|a x IH]; intros [|b y] H.
  - reflexivity.
  - rewrite append_nil, append_cons in H. injection H as _ H.
    destruct y; rewrite ?append_nil, ?append_cons in H; discriminate.
  - rewrite append_nil, append_cons in H. injection H as _ H.
    destruct x; rewrite ?append_nil, ?append_cons in H; discriminate.
  - rewrite !append_cons in H. injection H as -> H. f_equal. now apply IH.
Qed.

(** X23. The prosody rate always carries its sign, a plus for a percentage that
    is not negative and the minus of the number otherwise, and it can be
    read back: two speeds get the same rate only when they have the same
    percentage. *)
Theorem azure_rate_reads_back s1 s2 :
  (if (0 <=? AzureProvider.percent s1)%Z
   then startsWith (AzureProvider.speedToRate s1) "+"
   else startsWith (AzureProvider.speedToRate s1) "-") = true /\
  (AzureProvider.speedToRate s1 = AzureProvider.speedToRate s2 ->
   AzureProvider.percent s1 = AzureProvider.percent s2).
Proof.
  unfold AzureProvider.speedToRate. cbv zeta.
  set (a := AzureProvider.percent s1). set (b := AzureProvider.percent s2).
  clearbody a b.
  assert (Hneg : forall z, (z < 0)%Z -> exists rest, pretty z = String "-" rest).
  { intros [|q|q] Hz; try lia. unfold pretty, pretty_Z. rewrite append_cons, append_nil. eauto. }
  split.
  - destruct (Z.leb_spec 0 a) as [Ha|Ha].
    + rewrite append_cons, append_nil. reflexivity.
    + destruct (Hneg a Ha) as [rest ->]. rewrite append_cons. reflexivity.
  - destruct (Z.leb_spec 0 a) as [Ha|Ha], (Z.leb_spec 0 b) as [Hb|Hb]; intros H.
    + rewrite !append_cons, !append_nil in H. injection H as H.
      apply append_percent_inj in H. now apply (inj pretty).
    + destruct (Hneg b Hb) as [rest Hr]. rewrite Hr in H.
      rewrite !append_cons in H. discriminate.
    + destruct (Hneg a Ha) as [rest Hr]. rewrite Hr in H.
      rewrite !append_cons in H. discriminate.
    + apply append_percent_inj in H. now apply (inj pretty).
Qed.

(** Half speed and a speed a little above it get the same rate. *)
Lemma azure_rate_reads_back_witness :
  AzureProvider.percent (1 # 2) = AzureProvider.percent (501 # 1000).
Proof.
  apply (proj2 (azure_rate_reads_back (1 # 2) (501 # 1000))).
  vm_compute. reflexivity.
Defined.

End AzureRateFacts.

(** ** The player on system commands *)

Section SystemFacts.
Import JsString Hybrid.

Lemma system_cleanup_frame s :
  invoked (System.world (System.cleanup s)) = invoked (System.world s) /\
  host (System.world (System.cleanup s)) = host (System.world s) /\
  tmpdir (System.world (System.cleanup s)) = tmpdir (System.world s) /\
  faults (System.world (System.cleanup s)) = faults (System.world s) /\
  System.onDidStopCallback (System.self (System.cleanup s)) =
    System.onDidStopCallback (System.self s) /\
  System.currentProcess (System.self (System.cleanup s)) = None /\
  System.processes (System.cleanup s) = System.processes s.
Proof.
  unfold System.cleanup.
  destruct (System.tempFile (System.self s)) as [f|]; [|cbn; repeat split].
  destruct (truthy (Some f) && onDisk (System.world s) f); [|cbn; repeat split].
  destruct (isBusy (System.world s) f); cbn; repeat split.
Qed.

(** X24. [stop] of the system player kills the running process and runs the
    stored callback, every time it is called: the callback stays stored, so
    a second [stop] runs it again. A [play] begins with such a [stop], so it
    runs the callback of the session before, once, and only then stores the
    new one. *)
Theorem system_stop_runs_callback s cb :
  System.onDidStopCallback (System.self s) = Some cb ->
  invoked (System.world (System.stop s)) = S (invoked (System.world s)) /\
  host (System.world (System.stop s)) = cb (host (System.world s)) /\
  System.currentProcess (System.self (System.stop s)) = None /\
  System.killed (System.processes (System.stop s)) =
    System.killed (System.processes s) ++
    match System.currentProcess (System.self s) with Some pid => [pid] | None => [] end /\
  invoked (System.world (System.stop (System.stop s))) = S (S (invoked (System.world s))) /\
  forall platform audioData onStop now,
    let s' := System.stateOf (System.play platform audioData onStop now s) in
    invoked (System.world s') = S (invoked (System.world s)) /\
    host (System.world s') = cb (host (System.world s)) /\
    System.onDidStopCallback (System.self s') = onStop.
Proof.
  intros Hcb.
  assert (Hstop : forall t, System.onDidStopCallback (System.self t) = Some cb ->
            invoked (System.world (System.stop t)) = S (invoked (System.world t)) /\
            host (System.world (System.stop t)) = cb (host (System.world t)) /\
            System.onDidStopCallback (System.self (System.stop t)) = Some cb).
  { intros t Ht. unfold System.stop, System.fire.
    set (t1 := match System.currentProcess (System.self t) with
               | Some pid => System.kill pid t | None => t end).
    assert (H1 : System.onDidStopCallback (System.self t1) = Some cb
                 /\ invoked (System.world t1) = invoked (System.world t)
                 /\ host (System.world t1) = host (System.world t)).
    { unfold t1. destruct (System.currentProcess (System.self t)); cbn; auto. }
    destruct H1 as (Hc1 & Hi1 & Hh1).
    destruct (system_cleanup_frame t1) as (Hi & Hh & _ & _ & Hc & _).
    cbn [System.world System.self]. rewrite Hc, Hc1. cbn [invoked host call].
    rewrite Hi, Hh, Hi1, Hh1. auto. }
  destruct (Hstop s Hcb) as (H1 & H2 & H3).
  destruct (Hstop (System.stop s) H3) as (H4 & _ & _).
  split; [exact H1|]. split; [exact H2|]. split; [|split; [|split]].
  - unfold System.stop, System.fire. cbn [System.self].
    now destruct (system_cleanup_frame
      (match System.currentProcess (System.self s) with
       | Some pid => System.kill pid s | None => s end)) as (_ & _ & _ & _ & _ & H & _).
  - unfold System.stop, System.fire. cbn [System.processes].
    destruct (system_cleanup_frame
      (match System.currentProcess (System.self s) with
       | Some pid => System.kill pid s | None => s end)) as (_ & _ & _ & _ & _ & _ & H).
    rewrite H. destruct (System.currentProcess (System.self s)); cbn; [reflexivity|].
    now rewrite app_nil_r.
  - rewrite H4, H1. reflexivity.
  - intros platform audioData onStop now. cbv zeta. unfold System.play. cbv zeta.
    set (s1 := System.stop s) in *.
    destruct (faults (System.world s1) !! _) as [[message leftover]|].
    + cbn [System.stateOf System.world System.self System.onDidStopCallback].
      destruct leftover; cbn [invoked host setFiles]; auto.
    + destruct (System.spawnError (System.processes s1)).
      * cbn [System.stateOf].
        match goal with |- context [System.cleanup ?t] =>
          destruct (system_cleanup_frame t) as (Hi & Hh & _ & _ & Hc & _)
        end.
        rewrite Hi, Hh, Hc. cbn. auto.
      * cbn. auto.
Qed.

Lemma system_stop_runs_callback_witness :
  invoked (System.world (System.stop (System.stop System.busyPlaying))) = 2.
Proof.
  apply (system_stop_runs_callback System.busyPlaying onStopOfReadAloud). reflexivity.
Defined.

(** X25. When starting the player command throws, [play] of the system player
    rethrows the error of [spawn] after giving up the temp file it has just
    written: the file is deleted if it can be, and no file and no process
    are referenced. *)
Theorem system_spawn_failure platform audioData onStop now s message :
  let s1 := System.stop s in
  let path := tempPath (tmpdir (System.world s1)) now in
  System.spawnError (System.processes s) = Some message ->
  faults (System.world s1) !! path = None ->
  exists s',
    System.play platform audioData onStop now s = System.Thrown message s' /\
    System.tempFile (System.self s') = None /\
    System.currentProcess (System.self s') = None /\
    (isBusy (System.world s1) path = false -> onDisk (System.world s') path = false).
Proof.
  cbv zeta. intros Hspawn Hfault. unfold System.play. cbv zeta.
  set (s1 := System.stop s) in *.
  pose proof (tempPath_truthy (tmpdir (System.world s1)) now) as Htruthy.
  set (path := tempPath _ now) in *.
  assert (Hp : System.spawnError (System.processes s1) = Some message).
  { unfold s1, System.stop, System.fire. cbn [System.processes].
    match goal with |- context [System.cleanup ?t] =>
      destruct (system_cleanup_frame t) as (_ & _ & _ & _ & _ & _ & H)
    end.
    rewrite H. destruct (System.currentProcess (System.self s)); cbn; exact Hspawn. }
  rewrite Hfault, Hp.
  set (w3 := setFiles (<[path := audioData]> (files (System.world s1)))
               (Write path) (System.world s1)).
  assert (Hd : onDisk w3 path = true).
  { unfold onDisk, w3. cbn [files setFiles]. rewrite lookup_insert_eq.
    apply bool_decide_eq_true. eauto. }
  eexists. split; [reflexivity|].
  unfold System.cleanup. cbn [System.self System.world System.tempFile].
  rewrite Htruthy, Hd.
  cbn [andb fst snd System.self System.tempFile System.currentProcess System.world].
  repeat split.
  intros Hb. change (isBusy w3 path) with (isBusy (System.world s1) path).
  rewrite Hb. unfold onDisk, w3. cbn [files setFiles]. rewrite lookup_delete_eq.
  apply bool_decide_eq_false. intros [? ?]. discriminate.
Qed.

Lemma system_spawn_failure_witness :
  exists s',
    System.play System.linux [] None 1000 System.spawnThrows =
      System.Thrown "spawn E2BIG" s' /\
    System.tempFile (System.self s') = None /\
    System.currentProcess (System.self s') = None /\
    (isBusy (System.world (System.stop System.spawnThrows))
            (tempPath (tmpdir (System.world (System.stop System.spawnThrows))) 1000)
       = false ->
     onDisk (System.world s')
            (tempPath (tmpdir (System.world (System.stop System.spawnThrows))) 1000)
       = false).
Proof.
  apply (system_spawn_failure System.linux [] None 1000 System.spawnThrows
           "spawn E2BIG"); vm_compute; reflexivity.
Defined.

(** X26. The close listener of a process does not ask whether the process is
    still the current one. When a [play] has killed the process of the
    session before, and the close event of that process arrives after the
    [play] has returned, the listener deletes the file of the new session,
    runs the new callback and drops the reference to the new process: a
    [stop] after that kills nothing. *)
Theorem system_close_of_killed_process platform audioData onStop now s s1 pid :
  System.currentProcess (System.self s) = Some pid ->
  System.play platform audioData onStop now s = System.Returned s1 ->
  let s2 := System.onExit s1 in
  System.killed (System.processes s1) = System.killed (System.processes s) ++ [pid] /\
  (exists started path,
      System.currentProcess (System.self s1) = Some started /\
      System.tempFile (System.self s1) = Some path /\
      files (System.world s1) !! path = Some audioData /\
      (isBusy (System.world s1) path = false -> onDisk (System.world s2) path = false)) /\
  System.tempFile (System.self s2) = None /\
  System.currentProcess (System.self s2) = None /\
  invoked (System.world s2) =
    invoked (System.world s1) + match onStop with Some _ => 1 | None => 0 end /\
  System.killed (System.processes (System.stop s2)) = System.killed (System.processes s1).
Proof.
  intros Hpid Hplay. cbv zeta. unfold System.play in Hplay. cbv zeta in Hplay.
  assert (Hk : System.killed (System.processes (System.stop s)) =
               System.killed (System.processes s) ++ [pid]).
  { unfold System.stop, System.fire. cbn [System.processes].
    match goal with |- context [System.cleanup ?t] =>
      destruct (system_cleanup_frame t) as (_ & _ & _ & _ & _ & _ & H)
    end.
    rewrite H, Hpid. reflexivity. }
  set (s0 := System.stop s) in *. clearbody s0.
  pose proof (tempPath_truthy (tmpdir (System.world s0)) now) as Htruthy.
  set (path := tempPath _ now) in *. clearbody path.
  destruct (faults (System.world s0) !! path) as [[? ?]|]; [discriminate|].
  destruct (System.spawnError (System.processes s0)); [discriminate|].
  injection Hplay as <-.
  set (w3 := setFiles (<[path := audioData]> (files (System.world s0)))
               (Write path) (System.world s0)).
  assert (Hd : onDisk w3 path = true).
  { unfold onDisk, w3. cbn [files setFiles]. rewrite lookup_insert_eq.
    apply bool_decide_eq_true. eauto. }
  unfold System.onExit, System.stop, System.fire, System.cleanup.
  cbn [System.self System.world System.tempFile System.processes System.killed
       System.currentProcess System.onDidStopCallback].
  rewrite Htruthy, Hd.
  cbn [andb fst snd System.self System.world System.tempFile System.processes
       System.killed System.currentProcess System.onDidStopCallback].
  split; [exact Hk|]. split; [|split; [reflexivity|split; [reflexivity|split]]].
  - exists (length (System.spawned (System.processes s0))), path.
    split; [reflexivity|]. split; [reflexivity|]. split.
    + unfold w3. cbn [files setFiles]. apply lookup_insert_eq.
    + intros Hb. rewrite Hb. unfold onDisk.
      destruct onStop; cbn [call files setFiles];
        rewrite lookup_delete_eq; apply bool_decide_eq_false; intros [? ?]; discriminate.
  - destruct (isBusy w3 path), onStop; cbn; lia.
  - reflexivity.
Qed.

Lemma system_close_of_killed_process_witness :
  System.currentProcess
    (System.self
       (System.onExit
          (System.stateOf
             (System.play System.darwin [Byte.x49] (Some onStopOfReadAloud) 2000
                System.busyPlaying)))) = None.
Proof.
  apply (system_close_of_killed_process System.darwin [Byte.x49] (Some onStopOfReadAloud)
           2000 System.busyPlaying _ 0); vm_compute; reflexivity.
Defined.

End SystemFacts.
